(** * The retrieval pipeline of [task.embeddings]

    A shallow embedding of [task/embeddings/text_processor.py] and
    [task/embeddings/embeddings_client.py]: chunking, the embedding client,
    the statements sent to the vector store and the transactions around
    them.  Python exceptions are values of [Exn]; everything that touches the
    file system, the embedding service or the database runs in the monad [M],
    a state-and-exception monad over [World]. *)

From Stdlib Require Import ZArith Ascii String List Sorting.Sorted.
From stdpp Require Import base option list sorting gmap strings pretty.

Local Open Scope string_scope.
Local Open Scope list_scope.
Set Warnings "-register-all".

(** ** Results and exceptions *)

(** The exceptions that can leave the modelled functions.  The first two are
    the error kinds the specification names; the others are what Python,
    [requests] and [psycopg2] raise. *)
Inductive Exn : Type :=
| ConfigurationError
| EmbeddingUnavailable
| KeyError (key : Z)          (* [d[k]] on a dict without [k] *)
| IndexError                  (* [str.format] with too few arguments *)
| ValueError                  (* [str.format] on a malformed template *)
| TypeError                   (* wrong kind of Python object *)
| OSError                     (* [open]/[read] failed *)
| HTTPError                   (* [requests.post] / [raise_for_status] failed *)
| OperationalError            (* [psycopg2.connect] failed *)
| DatabaseError.              (* the server rejected a statement *)

Inductive result (A : Type) : Type :=
| Ok (a : A)
| Raise (e : Exn).
Arguments Ok {A} a.
Arguments Raise {A} e.

(** ** Strings *)

(** The double-quote character, which cannot be written inside a literal. *)
Definition dquote : ascii := ascii_of_nat 34.

Fixpoint join (sep : string) (xs : list string) : string :=
  match xs with
  | [] => ""
  | [x] => x
  | x :: rest => x +:+ sep +:+ join sep rest
  end.

(** ** Chunker *)

Module Chunker.

(** Modelled from the spec: the window loop of [chunk_text].  [start] is the
    position of the next window; a window that reaches the end of the text
    is the last one.  At most [fuel] windows are produced. *)
Fixpoint windows (fuel : nat) (text : string) (size step start : nat)
  : list string :=
  match fuel with
  | O => []
  | S fuel' =>
      if (String.length text <=? start)%nat then []
      else substring start size text ::
           (if (String.length text <=? start + size)%nat then []
            else windows fuel' text size step (start + step))
  end.

(** Modelled from the spec: [task/utils/text.py] ([chunk_text]) is not part
    of the sources at hand.  Section 4.1 gives the contract: windows of
    [chunk_size] characters whose starts advance by [chunk_size - overlap],
    a shorter unpadded final window, the empty sequence for the empty text,
    and a configuration error for [chunk_size <= 0] or
    [overlap >= chunk_size].  The scenario of section 8 ([chunk_size = 4],
    [overlap = 2] on an eight-character text gives three chunks, not four)
    fixes the stopping rule: the window that reaches the end of the text is
    the final one.  Every start advances by at least one character, so
    [length text] windows are always enough. *)
Definition chunk_text (text : string) (chunk_size overlap : Z)
  : result (list string) :=
  if (chunk_size <=? 0)%Z then Raise ConfigurationError
  else if (chunk_size <=? overlap)%Z then Raise ConfigurationError
  else Ok (windows (String.length text) text (Z.to_nat chunk_size)
             (Z.to_nat (chunk_size - overlap)) 0).

End Chunker.

(** ** [psycopg2.sql]: composing statements *)

Module Sql.

Inductive Composable : Type :=
| SQL (s : string)
| Identifier (name : string)
| Composed (parts : list Composable).

(** Doubling every double quote is how an identifier is escaped. *)
Fixpoint escape_dquotes (s : string) : string :=
  match s with
  | EmptyString => EmptyString
  | String c s' =>
      if Ascii.eqb c dquote
      then String dquote (String dquote (escape_dquotes s'))
      else String c (escape_dquotes s')
  end.

Definition quote_ident (name : string) : string :=
  String dquote (escape_dquotes name +:+ String dquote "").

Fixpoint as_string (c : Composable) : string :=
  match c with
  | SQL s => s
  | Identifier name => quote_ident name
  | Composed parts =>
      (fix concat (ps : list Composable) : string :=
         match ps with
         | [] => ""
         | p :: ps' => as_string p +:+ concat ps'
         end) parts
  end.

(** [SQL(template).format(args...)] for templates whose only replacement fields
    are the auto-numbered [{}]: the literal text before each field becomes an
    [SQL] part and the field takes the next argument.  [pre] is the literal
    text read since the last field.  Other uses of braces are outside the
    fragment and are answered with [ValueError] here. *)
Fixpoint format_parts (template pre : string) (args : list Composable)
  : result (list Composable) :=
  let literal := if String.eqb pre "" then [] else [SQL pre] in
  match template with
  | EmptyString => Ok literal
  | String c rest =>
      if Ascii.eqb c "{" then
        match rest with
        | String c' rest' =>
            if Ascii.eqb c' "}" then
              match args with
              | [] => Raise IndexError
              | a :: args' =>
                  match format_parts rest' "" args' with
                  | Ok parts => Ok (literal ++ a :: parts)
                  | Raise e => Raise e
                  end
              end
            else Raise ValueError
        | EmptyString => Raise ValueError
        end
      else if Ascii.eqb c "}" then Raise ValueError
      else format_parts rest (pre +:+ String c "") args
  end.

Definition format (template : string) (args : list Composable)
  : result Composable :=
  match format_parts template "" args with
  | Ok parts => Ok (Composed parts)
  | Raise e => Raise e
  end.

End Sql.

(** ** The server's reading of a statement text *)

Module SqlText.

(** Reads a delimited identifier whose opening quote has been consumed: the
    characters up to the closing quote, a doubled quote standing for one
    quote character.  Returns the identifier and the rest of the text. *)
Fixpoint scan_delimited (s : string) : option (string * string) :=
  match s with
  | EmptyString => None
  | String c s' =>
      if Ascii.eqb c dquote then
        match s' with
        | String c' s'' =>
            if Ascii.eqb c' dquote then
              match scan_delimited s'' with
              | Some (name, rest) => Some (String dquote name, rest)
              | None => None
              end
            else Some ("", s')
        | EmptyString => Some ("", "")
        end
      else
        match scan_delimited s' with
        | Some (name, rest) => Some (String c name, rest)
        | None => None
        end
  end.

Fixpoint strip_prefix (p s : string) : option string :=
  match p, s with
  | EmptyString, _ => Some s
  | String a p', String b s' => if Ascii.eqb a b then strip_prefix p' s' else None
  | String _ _, EmptyString => None
  end.

(** The table named by a text of the shape
    [TRUNCATE TABLE <delimited identifier>;], the only shape of composed
    statement the program sends.  The name is read back at any length; the
    server keeps the first 63 bytes of an identifier. *)
Definition parse_truncate (s : string) : option string :=
  match strip_prefix "TRUNCATE TABLE " s with
  | Some (String c rest) =>
      if Ascii.eqb c dquote then
        match scan_delimited rest with
        | Some (name, tail) => if String.eqb tail ";" then Some name else None
        | None => None
        end
      else None
  | _ => None
  end.

End SqlText.

(** ** Numbers and vectors *)

(** The two distance operators of the vector extension. *)
Inductive DistanceOp : Type :=
| L2Distance        (* <-> *)
| CosineDistance.   (* <=> *)

(** What the model takes from the platform without looking inside: double
    precision numbers as Python and the server share them, the server's
    order on them (total, which is what ORDER BY and [<] use), Python's
    [str] on them, the server's vector type with its input conversion
    ([text::vector], which may fail) and its distance operators (which fail
    on vectors of different dimensions). *)
Class Platform : Type := {
  Float : Type;
  float_le : Float -> Float -> bool;
  float_le_total : forall a b, float_le a b = true \/ float_le b a = true;
  float_le_trans : forall a b c,
    float_le a b = true -> float_le b c = true -> float_le a c = true;
  py_str : Float -> string;
  pgvector : Type;
  vector_in : string -> option pgvector;
  vector_distance : DistanceOp -> pgvector -> pgvector -> option Float
}.

(** The strict order that goes with [float_le]: the server's [<]. *)
Definition float_lt `{Platform} (a b : Float) : bool := negb (float_le b a).

(** ** The vector store *)

Section Store.
Context `{Platform}.

(** A row of the table [vectors (text, embedding)]. *)
Record Row : Type := { row_text : string; row_embedding : pgvector }.

(** A row as [RealDictCursor] returns it for the search query: a dict with
    the keys [text] and [distance]. *)
Record RealDictRow : Type := { res_text : string; res_distance : Float }.

(** The statements the program sends.  [StInsert] is
    [INSERT INTO vectors (text, embedding) VALUES (%s, %s::vector);] with its
    two parameters.  [StSelect] is the search query with the two places where
    the operator text is spliced in and its four parameters:
    [SELECT text, embedding <select_op> %s::vector AS distance FROM vectors
     WHERE embedding <where_op> %s::vector < %s ORDER BY distance LIMIT %s;] *)
Inductive Statement : Type :=
| StComposed (c : Sql.Composable)
| StInsert (text embedding : string)
| StSelect (select_op where_op : string) (select_arg where_arg : string)
           (bound : Float) (limit : Z).

(** A database is a [gmap string (list Row)]: the rows of every table, by
    table name.  The program reads and writes one table. *)
Definition vectors_table : string := "vectors".

Definition parse_op (s : string) : option DistanceOp :=
  if String.eqb s "<->" then Some L2Distance
  else if String.eqb s "<=>" then Some CosineDistance
  else None.

Definition exec_truncate (name : string) (db : gmap string (list Row))
  : option (gmap string (list Row)) :=
  match db !! name with
  | Some _ => Some (<[name := []]> db)
  | None => None
  end.

Definition exec_insert (text embedding : string) (db : gmap string (list Row))
  : option (gmap string (list Row)) :=
  match vector_in embedding, db !! vectors_table with
  | Some v, Some rows =>
      Some (<[vectors_table := rows ++ [{| row_text := text; row_embedding := v |}]]> db)
  | _, _ => None
  end.

(** WHERE: keep the rows whose distance to [q] is below [bound]; an error on
    any row fails the statement. *)
Fixpoint sql_where (op : DistanceOp) (q : pgvector) (bound : Float)
  (rows : list Row) : option (list Row) :=
  match rows with
  | [] => Some []
  | r :: rest =>
      match vector_distance op (row_embedding r) q, sql_where op q bound rest with
      | Some d, Some kept => Some (if float_lt d bound then r :: kept else kept)
      | _, _ => None
      end
  end.

(** The select list: [text] and the distance to [q] under the name
    [distance]. *)
Fixpoint sql_project (op : DistanceOp) (q : pgvector) (rows : list Row)
  : option (list RealDictRow) :=
  match rows with
  | [] => Some []
  | r :: rest =>
      match vector_distance op (row_embedding r) q, sql_project op q rest with
      | Some d, Some out => Some ({| res_text := row_text r; res_distance := d |} :: out)
      | _, _ => None
      end
  end.

(** ORDER BY distance: ascending in the server's order.  The server leaves
    the order of rows at equal distance open; the model sorts with a merge
    sort, and what is proved about the distances, the order and the number
    of the rows returned does not depend on how ties come out. *)
Definition by_distance (a b : RealDictRow) : Prop :=
  float_le (res_distance a) (res_distance b) = true.

#[global] Instance by_distance_dec (a b : RealDictRow) : Decision (by_distance a b) :=
  bool_eq_dec _ _.

Definition sql_order_by_distance (rows : list RealDictRow) : list RealDictRow :=
  merge_sort by_distance rows.

(** The search query: both operator texts and both vector parameters must be
    readable, a negative LIMIT is an error, and the rows kept by WHERE are
    projected, ordered and cut to the first [limit].  The model takes every
    non-negative LIMIT and looks at every row; the server's LIMIT is a 64-bit
    integer, larger values are an error there, and with LIMIT 0 it need not
    look at any row. *)
Definition exec_select (select_op where_op select_arg where_arg : string)
  (bound : Float) (limit : Z) (db : gmap string (list Row))
  : option (list RealDictRow) :=
  match parse_op select_op, parse_op where_op,
        vector_in select_arg, vector_in where_arg, db !! vectors_table with
  | Some sop, Some wop, Some sq, Some wq, Some rows =>
      if (limit <? 0)%Z then None
      else
        match sql_where wop wq bound rows with
        | Some kept =>
            match sql_project sop sq kept with
            | Some out => Some (take (Z.to_nat limit) (sql_order_by_distance out))
            | None => None
            end
        | None => None
        end
  | _, _, _, _, _ => None
  end.

(** One statement on a view of the database: the new view and the rows
    returned, or [None] when the server raises an error. *)
Definition run_statement (st : Statement) (db : gmap string (list Row))
  : option (gmap string (list Row) * list RealDictRow) :=
  match st with
  | StComposed c =>
      match SqlText.parse_truncate (Sql.as_string c) with
      | Some name =>
          match exec_truncate name db with
          | Some db' => Some (db', [])
          | None => None
          end
      | None => None
      end
  | StInsert text embedding =>
      match exec_insert text embedding db with
      | Some db' => Some (db', [])
      | None => None
      end
  | StSelect sop wop sarg warg bound limit =>
      match exec_select sop wop sarg warg bound limit db with
      | Some rows => Some (db, rows)
      | None => None
      end
  end.

(** ** The world outside the process *)

(** The body of the request to the embedding service. *)
Record Payload : Type := {
  payload_input : list string;
  payload_model : string;
  payload_dimensions : Z
}.

Inductive Event : Type :=
| EvPost (payload : Payload)
| EvOpen (file_name : string)
| EvPrint (line : string)
| EvConnect
| EvExecute (st : Statement)
| EvCommit (snapshot : gmap string (list Row))
| EvRollback.

(** [committed] is the database as every session sees it; [txn] is the view
    of the transaction the program has open, if any (the program never holds
    two connections at a time); [log] lists the effects, oldest first. *)
Record World : Type := {
  committed : gmap string (list Row);
  txn : option (gmap string (list Row));
  connects : nat;
  log : list Event
}.

(** What the outside answers: the content of a file ([None]: it cannot be
    read), the [data] items (index, embedding) of the service's response to a
    payload ([None]: the request fails), and whether the n-th connection
    attempt to the database succeeds. *)
Record Env : Type := {
  files : string -> option string;
  embeddings_service : Payload -> option (list (Z * list Float));
  accepts_connection : nat -> bool
}.

Definition emit (e : Event) (w : World) : World :=
  {| committed := committed w; txn := txn w; connects := connects w;
     log := log w ++ [e] |}.

(** ** The monad *)

Definition M (A : Type) : Type := World -> result A * World.

Definition ret {A} (a : A) : M A := fun w => (Ok a, w).

Definition raise {A} (e : Exn) : M A := fun w => (Raise e, w).

Definition bind {A B} (m : M A) (k : A -> M B) : M B :=
  fun w =>
    match m w with
    | (Ok a, w') => k a w'
    | (Raise e, w') => (Raise e, w')
    end.

Definition lift {A} (r : result A) : M A := fun w => (r, w).

End Store.

Notation "'let*' x ':=' m 'in' k" := (bind m (fun x => k))
  (at level 10, x name, m at level 100, k at level 200, only parsing).

(** ** [embeddings_client.py] and [text_processor.py] *)

(** [SearchMode] is a [StrEnum]: its members are strings and compare as
    strings. *)
Definition SearchMode : Type := string.
Definition EUCLIDIAN_DISTANCE : SearchMode := "euclidean".
Definition COSINE_DISTANCE : SearchMode := "cosine".

Record DialEmbeddingsClient : Type := {
  deployment_name : string;
  api_key : string
}.

(** [db_config] only feeds [psycopg2.connect], whose outcome is the
    environment's to decide, so the record keeps the client alone. *)
Record TextProcessor : Type := {
  embeddings_client : DialEmbeddingsClient
}.

Section Program.
Context `{Platform}.
Variable env : Env.

(** [chunk_text] of [task/utils/text.py]; [Chunker.chunk_text] is the one the
    specification describes. *)
Variable chunk_text : string -> Z -> Z -> result (list string).

(** *** Primitive effects *)

(** [requests.post(...)], [raise_for_status()] and
    [response.json().get("data", [])]. *)
Definition requests_post (payload : Payload) : M (list (Z * list Float)) :=
  fun w =>
    let w' := emit (EvPost payload) w in
    match embeddings_service env payload with
    | Some data => (Ok data, w')
    | None => (Raise HTTPError, w')
    end.

(** [open(file_name, 'r', encoding='utf-8')] and [file.read()]. *)
Definition open_read (file_name : string) : M string :=
  fun w =>
    let w' := emit (EvOpen file_name) w in
    match files env file_name with
    | Some content => (Ok content, w')
    | None => (Raise OSError, w')
    end.

Definition print (line : string) : M unit :=
  fun w => (Ok tt, emit (EvPrint line) w).

(** [d[k]] *)
Definition dict_get (d : gmap Z (list Float)) (k : Z) : M (list Float) :=
  match d !! k with
  | Some v => ret v
  | None => raise (KeyError k)
  end.

(** [psycopg2.connect(...)]: a fresh session, no transaction open. *)
Definition _get_connection : M unit :=
  fun w =>
    let w' := {| committed := committed w; txn := None;
                 connects := S (connects w); log := log w ++ [EvConnect] |} in
    if accepts_connection env (connects w) then (Ok tt, w')
    else (Raise OperationalError, w').

(** [cursor.execute(...)] followed, for a query, by [cursor.fetchall()]: the
    statement runs on the transaction's view (a transaction starts with the
    first statement) and changes that view only. *)
Definition cursor_execute (st : Statement) : M (list RealDictRow) :=
  fun w =>
    let w' := emit (EvExecute st) w in
    match run_statement st (default (committed w) (txn w)) with
    | Some (view, rows) =>
        (Ok rows, {| committed := committed w'; txn := Some view;
                     connects := connects w'; log := log w' |})
    | None => (Raise DatabaseError, w')
    end.

Definition conn_commit : M unit :=
  fun w =>
    let db := default (committed w) (txn w) in
    (Ok tt, {| committed := db; txn := None; connects := connects w;
               log := log w ++ [EvCommit db] |}).

Definition conn_rollback : M unit :=
  fun w =>
    (Ok tt, {| committed := committed w; txn := None; connects := connects w;
               log := log w ++ [EvRollback] |}).

(** [with self._get_connection() as conn: body]: leaving the block commits,
    leaving it by an exception rolls back and lets the exception through. *)
Definition with_connection {A} (body : M A) : M A :=
  let* _ := _get_connection in
  fun w =>
    match body w with
    | (Ok a, w') => (let* _ := conn_commit in ret a) w'
    | (Raise e, w') => (let* _ := conn_rollback in raise e) w'
    end.

(** *** [DialEmbeddingsClient.get_embeddings] *)

(** The loop [for item in data: embeddings_dict[item["index"]] =
    item["embedding"]], from the empty dict. *)
Definition index_embeddings (data : list (Z * list Float)) : gmap Z (list Float) :=
  foldl (fun embeddings_dict item => <[item.1 := item.2]> embeddings_dict) ∅ data.

Definition embeddings_payload (self : DialEmbeddingsClient)
  (input_list : list string) (dimensions : Z) : Payload :=
  {| payload_input := input_list;
     payload_model := deployment_name self;
     payload_dimensions := dimensions |}.

Definition get_embeddings (self : DialEmbeddingsClient)
  (input_list : list string) (dimensions : Z) : M (gmap Z (list Float)) :=
  let* data := requests_post (embeddings_payload self input_list dimensions) in
  ret (index_embeddings data).

(** *** [TextProcessor] *)

(** ["[" + ",".join(map(str, embedding_vector)) + "]"] *)
Definition vector_literal (v : list Float) : string :=
  "[" +:+ join "," (map py_str v) +:+ "]".

Definition _truncate_table (self : TextProcessor) (table_name : string) : M unit :=
  with_connection (
    let* st := lift (Sql.format "TRUNCATE TABLE {};" [Sql.Identifier table_name]) in
    let* _ := cursor_execute (StComposed st) in
    conn_commit).

(** The body of [for index, chunk in enumerate(chunks)], from [index] on. *)
Fixpoint insert_chunks (embeddings_dict : gmap Z (list Float)) (index : Z)
  (chunks : list string) : M unit :=
  match chunks with
  | [] => ret tt
  | chunk :: rest =>
      let* embedding_vector := dict_get embeddings_dict index in
      let embedding_str := vector_literal embedding_vector in
      let* _ := print embedding_str in
      let* _ := cursor_execute (StInsert chunk embedding_str) in
      insert_chunks embeddings_dict (index + 1) rest
  end.

Definition process_text_file (self : TextProcessor) (file_name : string)
  (chunk_size overlap dimensions : Z) (truncate_table : bool) : M unit :=
  let* _ := (if truncate_table then _truncate_table self vectors_table else ret tt) in
  let* content := open_read file_name in
  let* chunks := lift (chunk_text content chunk_size overlap) in
  let* embeddings_dict := get_embeddings (embeddings_client self) chunks dimensions in
  with_connection (
    let* _ := insert_chunks embeddings_dict 0 chunks in
    conn_commit).

Definition distance_operator (search_mode : SearchMode) : string :=
  if String.eqb search_mode EUCLIDIAN_DISTANCE then "<->" else "<=>".

Definition search (self : TextProcessor) (search_mode : SearchMode)
  (user_request : string) (top_k : Z) (min_score_threshold : Float)
  (dimensions : Z) : M (list RealDictRow) :=
  let* request_embedding_dict :=
    get_embeddings (embeddings_client self) [user_request] dimensions in
  let* request_embedding_vector := dict_get request_embedding_dict 0 in
  let request_embedding_str := vector_literal request_embedding_vector in
  let op := distance_operator search_mode in
  with_connection (
    cursor_execute (StSelect op op request_embedding_str request_embedding_str
                             min_score_threshold top_k)).

(** *** The caller in [app.py] *)

(** The separator of [run_console_chat]: two line feeds. *)
Definition context_separator : string := String "010" (String "010" "").

(** What [search] hands to its caller, as Python objects, and
    ["\n\n".join(context_chunks)] on them: [str.join] wants strings. *)
Inductive PyObject : Type :=
| PyStr (s : string)
| PyRealDictRow (r : RealDictRow).

Fixpoint str_items (items : list PyObject) : result (list string) :=
  match items with
  | [] => Ok []
  | PyStr s :: rest =>
      match str_items rest with
      | Ok ss => Ok (s :: ss)
      | Raise e => Raise e
      end
  | PyRealDictRow _ :: _ => Raise TypeError
  end.

Definition str_join (sep : string) (items : list PyObject) : result string :=
  match str_items items with
  | Ok ss => Ok (join sep ss)
  | Raise e => Raise e
  end.

End Program.

(** ** A small platform for worked examples *)

Module Toy.

(** Integers stand for the floating-point numbers, [str] prints them in
    decimal, a vector is a non-empty list of integers written [[1,2,3]], the
    [<->] distance is the squared Euclidean distance and [<=>] is one minus
    the dot product; both are defined on vectors of the same length only. *)

Fixpoint parse_digits (s : string) (acc : Z) : option Z :=
  match s with
  | EmptyString => Some acc
  | String c rest =>
      match Ascii.is_nat c with
      | Some d => parse_digits rest (10 * acc + Z.of_nat d)
      | None => None
      end
  end.

Definition parse_int (s : string) : option Z :=
  match s with
  | EmptyString => None
  | String c rest =>
      if Ascii.eqb c "-" then
        match rest with
        | EmptyString => None
        | _ => Z.opp <$> parse_digits rest 0
        end
      else parse_digits s 0
  end.

(** The items between the commas, up to the closing bracket, which must be
    the last character. *)
Fixpoint scan_items (s cur : string) (acc : list string) : option (list string) :=
  match s with
  | EmptyString => None
  | String c rest =>
      if Ascii.eqb c "]" then
        (if String.eqb rest "" then Some (acc ++ [cur]) else None)
      else if Ascii.eqb c "," then scan_items rest "" (acc ++ [cur])
      else scan_items rest (cur +:+ String c "") acc
  end.

Definition parse_vector (s : string) : option (list Z) :=
  match s with
  | String c rest =>
      if Ascii.eqb c "[" then
        match scan_items rest "" [] with
        | Some items => mapM parse_int items
        | None => None
        end
      else None
  | EmptyString => None
  end.

Fixpoint squared_l2 (a b : list Z) : option Z :=
  match a, b with
  | [], [] => Some 0%Z
  | x :: a', y :: b' => (fun d => (x - y) * (x - y) + d)%Z <$> squared_l2 a' b'
  | _, _ => None
  end.

Fixpoint dot (a b : list Z) : option Z :=
  match a, b with
  | [], [] => Some 0%Z
  | x :: a', y :: b' => (fun d => x * y + d)%Z <$> dot a' b'
  | _, _ => None
  end.

Definition toy_distance (op : DistanceOp) (a b : list Z) : option Z :=
  match op with
  | L2Distance => squared_l2 a b
  | CosineDistance => (fun d => 1 - d)%Z <$> dot a b
  end.

Definition leb_total (a b : Z) : (a <=? b)%Z = true \/ (b <=? a)%Z = true.
Proof. destruct (Z.leb_spec a b); [left; reflexivity|right; apply Z.leb_le; lia]. Defined.

Definition leb_trans (a b c : Z) :
  (a <=? b)%Z = true -> (b <=? c)%Z = true -> (a <=? c)%Z = true.
Proof. rewrite !Z.leb_le. lia. Defined.

#[export] Instance platform : Platform := {|
  Float := Z;
  float_le := Z.leb;
  float_le_total := leb_total;
  float_le_trans := leb_trans;
  py_str := pretty;
  pgvector := list Z;
  vector_in := parse_vector;
  vector_distance := toy_distance
|}.

Definition client : DialEmbeddingsClient :=
  {| deployment_name := "text-embedding-3-small-1"; api_key := "key" |}.

Definition processor : TextProcessor := {| embeddings_client := client |}.

(** Three stored rows, at squared distances 9, 1 and 4 from the vector [0]
    and 4, 0 and 1 from the vector [1]. *)
Definition three_rows : list Row :=
  [{| row_text := "far"; row_embedding := [3%Z] |};
   {| row_text := "near"; row_embedding := [1%Z] |};
   {| row_text := "middle"; row_embedding := [2%Z] |}].

Definition three_db : gmap string (list Row) := {[ vectors_table := three_rows ]}.

(** A result row. *)
Definition hit (text : string) (distance : Z) : RealDictRow :=
  {| res_text := text; res_distance := distance |}.

(** The search query for the vector [0] under the Euclidean operator. *)
Definition euclidean_query (bound limit : Z) : Statement :=
  StSelect "<->" "<->" "[0]" "[0]" bound limit.

(** The search query for the vector [0] under the cosine operator. *)
Definition cosine_query (bound limit : Z) : Statement :=
  StSelect "<=>" "<=>" "[0]" "[0]" bound limit.


(** A database whose [vectors] table already holds a row. *)
Definition old_rows : list Row := [{| row_text := "old"; row_embedding := [7%Z] |}].

Definition stocked_db : gmap string (list Row) := {[ vectors_table := old_rows ]}.

Definition world (db : gmap string (list Row)) : World :=
  {| committed := db; txn := None; connects := 0; log := [] |}.

(** The service embeds the i-th input as the one-dimensional vector [i], but
    answers for the first [answered] inputs only, and it refuses a request
    for a non-positive number of dimensions. *)
Definition service (answered : nat) (p : Payload) : option (list (Z * list Z)) :=
  if (payload_dimensions p <=? 0)%Z then None
  else Some (imap (fun i _ => (Z.of_nat i, [Z.of_nat i]))
                  (take answered (payload_input p))).

(** The response items for two inputs. *)
Definition two_embeddings : list (Z * list (@Float platform)) :=
  [(0%Z, [0%Z]); (1%Z, [1%Z])].

(** The response items for three inputs. *)
Definition three_embeddings : list (Z * list (@Float platform)) :=
  [(0%Z, [0%Z]); (1%Z, [1%Z]); (2%Z, [2%Z])].

(** One file, [manual.txt], every request answered up to [answered] inputs,
    every connection accepted. *)
Definition env (answered : nat) : Env :=
  {| files := fun name => if String.eqb name "manual.txt" then Some "ABCDEFGH" else None;
     embeddings_service := service answered;
     accepts_connection := fun _ => true |}.

End Toy.

(** ** Observations *)

Section Observations.
Context `{Platform}.

(** The rows of the [vectors] table in a database. *)
Definition vectors_of (db : gmap string (list Row)) : list Row :=
  default [] (db !! vectors_table).

(** The database as the program's own session sees it. *)
Definition view (w : World) : gmap string (list Row) :=
  default (committed w) (txn w).

(** The statements sent to the server, in order. *)
Definition executed (evs : list Event) : list Statement :=
  omap (fun e => match e with EvExecute st => Some st | _ => None end) evs.

(** The database states that were committed, in order: together with the
    initial state, all that another session can ever see. *)
Definition snapshots (evs : list Event) : list (gmap string (list Row)) :=
  omap (fun e => match e with EvCommit db => Some db | _ => None end) evs.

(** The rows whose distance to [q] under [op] is below [bound], each with
    its text and that distance, in table order. *)
Definition within_threshold (op : DistanceOp) (q : pgvector) (bound : Float)
  (rows : list Row) : list RealDictRow :=
  omap (fun r =>
          match vector_distance op (row_embedding r) q with
          | Some d =>
              if float_lt d bound
              then Some {| res_text := row_text r; res_distance := d |}
              else None
          | None => None
          end) rows.

(** The metric a search mode stands for. *)
Definition selected_metric (search_mode : SearchMode) : DistanceOp :=
  if String.eqb search_mode EUCLIDIAN_DISTANCE then L2Distance else CosineDistance.

(** The statement [_truncate_table] composes for a table name. *)
Definition truncate_statement (table_name : string) : Sql.Composable :=
  Sql.Composed [Sql.SQL "TRUNCATE TABLE "; Sql.Identifier table_name; Sql.SQL ";"].

End Observations.

(** ** Further observations *)

(** The table names the server takes as they are: at least one and at most
    63 bytes, none of them the zero byte.  (The server cuts a longer name to
    its first 63 bytes, and the client library stops reading a name at a
    zero byte.) *)
Fixpoint has_zero_byte (s : string) : bool :=
  match s with
  | EmptyString => false
  | String c s' => Ascii.eqb c zero || has_zero_byte s'
  end.

Definition identifier_fits (name : string) : bool :=
  (1 <=? String.length name)%nat && (String.length name <=? 63)%nat
  && negb (has_zero_byte name).

Section MoreObservations.
Context `{Platform}.

(** The requests sent to the embedding service, in order. *)
Definition posts (evs : list Event) : list Payload :=
  omap (fun e => match e with EvPost p => Some p | _ => None end) evs.

(** The embeddings the response items carry for the index [i], in the order
    of the response. *)
Definition items_at (i : Z) (data : list (Z * list Float)) : list (list Float) :=
  omap (fun item => if decide (item.1 = i) then Some item.2 else None) data.

(** The rows a list of chunks stands for under an embedding dict: the chunk
    at position [j] with the vector the server reads from the literal of the
    embedding at [index + j]; a chunk without such a vector gives no row. *)
Fixpoint document_rows (d : gmap Z (list Float)) (index : Z)
  (chunks : list string) : list Row :=
  match chunks with
  | [] => []
  | chunk :: rest =>
      match d !! index with
      | Some v =>
          match vector_in (vector_literal v) with
          | Some pv => [{| row_text := chunk; row_embedding := pv |}]
          | None => []
          end
      | None => []
      end ++ document_rows d (index + 1) rest
  end.

(** The INSERT statements for a list of chunks, in order, up to the first
    position whose index is not in the dict. *)
Fixpoint insert_statements (d : gmap Z (list Float)) (index : Z)
  (chunks : list string) : list Statement :=
  match chunks with
  | [] => []
  | chunk :: rest =>
      match d !! index with
      | Some v => StInsert chunk (vector_literal v)
                  :: insert_statements d (index + 1) rest
      | None => []
      end
  end.

End MoreObservations.

(** ** The retrieval step of [app.py] *)

Section App.
Context `{Platform}.
Variable env : Env.

(** The parameters of [TextProcessor.search] after [self]. *)
Definition search_parameters : list string :=
  ["search_mode"; "user_request"; "top_k"; "min_score_threshold"; "dimensions"].

(** A call that passes all its arguments by keyword, to a function whose
    parameters have no defaults: Python raises [TypeError], before the body
    runs, when a keyword is not the name of a parameter or when a parameter
    gets no argument. *)
Definition check_keywords (parameters given : list string) : result unit :=
  if forallb (fun k => bool_decide (k ∈ parameters)) given
     && forallb (fun p => bool_decide (p ∈ given)) parameters
  then Ok tt
  else Raise TypeError.

(** The "retrieve context" step of the loop of [run_console_chat]: the call
    of [search] with its five keyword arguments, then the join of the result.
    [score_threshold] stands for the float [0.01] of the call; the arguments
    are placed where their keywords would bind them if the names matched. *)
Definition retrieve_context (self : TextProcessor) (user_input : string)
  (score_threshold : Float) : M string :=
  let* _ := lift (check_keywords search_parameters
                    ["search_mode"; "user_request"; "top_k";
                     "score_threshold"; "dimensions"]) in
  let* context_chunks :=
    search env self EUCLIDIAN_DISTANCE user_input 5 score_threshold 1536 in
  lift (str_join context_separator (map PyRealDictRow context_chunks)).

End App.

(** * Properties *)

(** Python's [s[a : a + n]] is [substring a n s]. *)
Lemma substring_length (s : string) : forall a n,
  String.length (substring a n s) = Nat.min n (String.length s - a).
Proof.
  induction s as [|c s IH]; intros a n.
  - destruct a, n; simpl; lia.
  - destruct a as [|a]; simpl.
    + destruct n as [|n]; simpl; [lia|]. rewrite IH. lia.
    + rewrite IH. lia.
Qed.

Section ChunkerFacts.
Import Chunker.

Variables (text : string) (size step : nat).
Hypothesis size_pos : 0 < size.
Hypothesis step_pos : 0 < step.
Hypothesis step_le : step <= size.

Let len := String.length text.

(** What the loop started at [start] produces, window by window. *)
Lemma windows_spec : forall fuel start,
  len - start <= fuel ->
  let ws := windows fuel text size step start in
  (start < len -> ws <> []) /\
  forall i c, ws !! i = Some c ->
    c = substring (start + i * step) size text /\
    start + i * step < len /\
    (S i < length ws -> start + i * step + size < len) /\
    (S i = length ws -> len <= start + i * step + size).
Proof.
  induction fuel as [|fuel IH]; intros start Hfuel; simpl.
  - split; [lia|]. intros i c H. rewrite lookup_nil in H. discriminate.
  - fold len. destruct (Nat.leb_spec len start) as [Hge|Hlt].
    + split; [lia|]. intros i c H. rewrite lookup_nil in H. discriminate.
    + split; [discriminate|].
      destruct (Nat.leb_spec len (start + size)) as [Hend|Hmore].
      * intros [|i] c H; simpl in H; [|rewrite lookup_nil in H; discriminate].
        injection H as <-. simpl. rewrite Nat.add_0_r.
        repeat split; try lia.
      * destruct (IH (start + step)) as [Hne IHw]; [lia|].
        intros [|i] c H; simpl in H.
        -- injection H as <-. simpl. rewrite Nat.add_0_r.
           repeat split; try lia.
           intros Hl. exfalso. apply Hne; [lia|].
           destruct (windows fuel text size step (start + step)); simpl in *;
             [reflexivity|lia].
        -- destruct (IHw i c H) as (Hc & Hin & Hmid & Hlast).
           replace (start + S i * step) with (start + step + i * step) by lia.
           simpl. split; [exact Hc|]. split; [exact Hin|].
           split; intros; [apply Hmid|apply Hlast]; lia.
Qed.

End ChunkerFacts.

(** ** The chunker *)

(** C5.  For every text and every valid pair ([0 < chunk_size],
    [0 <= overlap < chunk_size]) the chunker returns a sequence whose i-th
    chunk is the window of [chunk_size] characters that starts at
    [i * (chunk_size - overlap)]; no chunk is empty, every chunk but the last
    has exactly [chunk_size] characters, the last one is at most that long
    (it is not padded) and ends where the text ends; the empty text gives the
    empty sequence and only the empty text does; and on the eight-character
    text of the scenario, [chunk_size = 4] and [overlap = 2] give the three
    chunks the specification lists. *)
Theorem chunk_text_windows (text : string) (chunk_size overlap : Z) :
  (0 < chunk_size)%Z -> (0 <= overlap < chunk_size)%Z ->
  exists chunks,
    Chunker.chunk_text text chunk_size overlap = Ok chunks /\
    (forall i c, chunks !! i = Some c ->
       let start := i * Z.to_nat (chunk_size - overlap) in
       c = substring start (Z.to_nat chunk_size) text /\
       c <> "" /\
       (S i < length chunks -> String.length c = Z.to_nat chunk_size) /\
       (S i = length chunks ->
          String.length c <= Z.to_nat chunk_size /\
          start + String.length c = String.length text)) /\
    (text = "" <-> chunks = []) /\
    Chunker.chunk_text "ABCDEFGH" 4 2 = Ok ["ABCD"; "CDEF"; "EFGH"].
Proof.
  intros Hsize Hov. unfold Chunker.chunk_text.
  destruct (Z.leb_spec chunk_size 0) as [?|_]; [lia|].
  destruct (Z.leb_spec chunk_size overlap) as [?|_]; [lia|].
  eexists; split; [reflexivity|].
  set (size := Z.to_nat chunk_size). set (step := Z.to_nat (chunk_size - overlap)).
  assert (Hs : 0 < size) by (unfold size; lia).
  assert (Hp : 0 < step) by (unfold step; lia).
  assert (Hle : step <= size) by (unfold size, step; lia).
  destruct (windows_spec text size step Hs Hp Hle (String.length text) 0)
    as [Hne Hw]; [lia|].
  split; [|split; [|reflexivity]].
  - intros i c Hi. destruct (Hw i c Hi) as (Hc & Hin & Hmid & Hlast).
    simpl in Hc, Hin, Hmid, Hlast. simpl.
    assert (Hlen : String.length c
                   = Nat.min size (String.length text - i * step))
      by (rewrite Hc; apply substring_length).
    split; [exact Hc|]. split.
    + intros ->. simpl in Hlen. lia.
    + split; intros Hpos.
      * specialize (Hmid Hpos). lia.
      * specialize (Hlast Hpos). lia.
  - split.
    + intros ->. reflexivity.
    + intros Hnil. destruct text as [|a text']; [reflexivity|].
      exfalso. apply Hne; [simpl; lia|exact Hnil].
Qed.

Lemma chunk_text_windows_witness :
  exists chunks,
    Chunker.chunk_text "ABCDEFGHI" 4 1 = Ok chunks /\
    (forall i c, chunks !! i = Some c ->
       let start := i * Z.to_nat (4 - 1) in
       c = substring start (Z.to_nat 4) "ABCDEFGHI" /\
       c <> "" /\
       (S i < length chunks -> String.length c = Z.to_nat 4) /\
       (S i = length chunks ->
          String.length c <= Z.to_nat 4 /\
          start + String.length c = String.length "ABCDEFGHI")) /\
    ("ABCDEFGHI" = "" <-> chunks = []) /\
    Chunker.chunk_text "ABCDEFGH" 4 2 = Ok ["ABCD"; "CDEF"; "EFGH"].
Proof. apply (chunk_text_windows "ABCDEFGHI" 4 1); lia. Defined.

(** The two chunking scenarios of the specification, and a text whose last
    window is shorter than the others. *)
Example chunk_text_scenarios :
  Chunker.chunk_text "AAAABBBBCCCC" 4 0 = Ok ["AAAA"; "BBBB"; "CCCC"] /\
  Chunker.chunk_text "ABCDEFGH" 4 2 = Ok ["ABCD"; "CDEF"; "EFGH"] /\
  Chunker.chunk_text "ABCDEFGHI" 4 2 = Ok ["ABCD"; "CDEF"; "EFGH"; "GHI"] /\
  Chunker.chunk_text "" 4 2 = Ok [].
Proof. repeat split; reflexivity. Qed.

(** C6.  Whatever the text, a call with [chunk_size <= 0] or with
    [overlap >= chunk_size] raises [ConfigurationError]: the window loop is
    never entered and no chunk sequence is returned. *)
Theorem chunk_text_rejects (text : string) (chunk_size overlap : Z) :
  (chunk_size <= 0 \/ overlap >= chunk_size)%Z ->
  Chunker.chunk_text text chunk_size overlap = Raise ConfigurationError.
Proof.
  intros Hbad. unfold Chunker.chunk_text.
  destruct (Z.leb_spec chunk_size 0) as [_|Hpos]; [reflexivity|].
  destruct (Z.leb_spec chunk_size overlap) as [_|Hlt]; [reflexivity|lia].
Qed.

Lemma chunk_text_rejects_witness :
  Chunker.chunk_text "ABCDEFGH" 4 4 = Raise ConfigurationError /\
  Chunker.chunk_text "ABCDEFGH" 0 0 = Raise ConfigurationError.
Proof.
  split; [apply (chunk_text_rejects "ABCDEFGH" 4 4)
         |apply (chunk_text_rejects "ABCDEFGH" 0 0)]; lia.
Defined.

(** ** Composed statements *)

Lemma append_nil (b : string) : "" +:+ b = b.
Proof. reflexivity. Qed.

Lemma append_cons (c : ascii) (a b : string) :
  String c a +:+ b = String c (a +:+ b).
Proof. reflexivity. Qed.

Lemma append_assoc (a b c : string) : (a +:+ b) +:+ c = a +:+ (b +:+ c).
Proof.
  induction a as [|x a IH]; [reflexivity|].
  rewrite !append_cons. f_equal. exact IH.
Qed.

(** A delimited identifier reads back as the name that was escaped, and the
    scan stops at the closing quote. *)
Lemma scan_delimited_escape (name rest : string) :
  match rest with String c _ => Ascii.eqb c dquote = false | EmptyString => True end ->
  SqlText.scan_delimited (Sql.escape_dquotes name +:+ String dquote rest)
  = Some (name, rest).
Proof.
  intros Hrest. induction name as [|c name IH]; simpl.
  - destruct rest as [|c' rest']; [reflexivity|]. now rewrite Hrest.
  - destruct (Ascii.eqb_spec c dquote) as [->|Hc].
    + rewrite ?append_cons. simpl. rewrite ?Ascii.eqb_refl, IH. reflexivity.
    + apply Ascii.eqb_neq in Hc. rewrite ?append_cons. simpl.
      rewrite ?Hc, IH. reflexivity.
Qed.

Lemma format_truncate (name : string) :
  Sql.format "TRUNCATE TABLE {};" [Sql.Identifier name] = Ok (truncate_statement name).
Proof. reflexivity. Qed.

Lemma as_string_truncate (name : string) :
  Sql.as_string (truncate_statement name)
  = "TRUNCATE TABLE " +:+ Sql.quote_ident name +:+ ";".
Proof. reflexivity. Qed.

Lemma parse_truncate_statement (name : string) :
  SqlText.parse_truncate (Sql.as_string (truncate_statement name)) = Some name.
Proof.
  rewrite as_string_truncate. unfold SqlText.parse_truncate, Sql.quote_ident.
  rewrite ?append_cons, ?append_nil. simpl.
  rewrite ?Ascii.eqb_refl, append_assoc, ?append_cons, ?append_nil.
  rewrite scan_delimited_escape; [reflexivity|reflexivity].
Qed.

(** ** Running the program *)

Section ProgramFacts.
Context `{Platform}.
Variable env : Env.

Lemma executed_app (a b : list Event) : executed (a ++ b) = executed a ++ executed b.
Proof. apply omap_app. Qed.

Lemma snapshots_app (a b : list Event) : snapshots (a ++ b) = snapshots a ++ snapshots b.
Proof. apply omap_app. Qed.

(** [_truncate_table], case by case: the connection is refused; the table
    does not exist, so the statement fails and the transaction is rolled
    back; or the table is emptied and that is committed (by [conn.commit()]
    and once more, to no effect, on leaving the [with] block). *)
Lemma truncate_table_run (self : TextProcessor) (table_name : string) (w : World) :
  _truncate_table env self table_name w =
  let st := StComposed (truncate_statement table_name) in
  if accepts_connection env (connects w) then
    match committed w !! table_name with
    | Some _ =>
        let db := <[table_name := []]> (committed w) in
        (Ok tt, {| committed := db; txn := None; connects := S (connects w);
                   log := log w ++ [EvConnect; EvExecute st; EvCommit db; EvCommit db] |})
    | None =>
        (Raise DatabaseError,
         {| committed := committed w; txn := None; connects := S (connects w);
            log := log w ++ [EvConnect; EvExecute st; EvRollback] |})
    end
  else
    (Raise OperationalError,
     {| committed := committed w; txn := None; connects := S (connects w);
        log := log w ++ [EvConnect] |}).
Proof.
  unfold _truncate_table, with_connection, bind, _get_connection.
  destruct (accepts_connection env (connects w)); [|reflexivity].
  unfold lift. rewrite format_truncate.
  unfold cursor_execute, run_statement, emit.
  rewrite parse_truncate_statement. unfold exec_truncate. simpl.
  destruct (committed w !! table_name) as [rows|]; simpl;
    rewrite <- ?app_assoc; reflexivity.
Qed.

(** One turn of the insertion loop. *)
Lemma insert_chunks_cons (d : gmap Z (list Float)) (index : Z)
  (chunk : string) (rest : list string) (w : World) :
  insert_chunks d index (chunk :: rest) w =
  match d !! index with
  | None => (Raise (KeyError index), w)
  | Some v =>
      let lit := vector_literal v in
      let evs := [EvPrint lit; EvExecute (StInsert chunk lit)] in
      match exec_insert chunk lit (view w) with
      | Some db =>
          insert_chunks d (index + 1) rest
            {| committed := committed w; txn := Some db;
               connects := connects w; log := log w ++ evs |}
      | None =>
          (Raise DatabaseError,
           {| committed := committed w; txn := txn w;
              connects := connects w; log := log w ++ evs |})
      end
  end.
Proof.
  simpl. unfold bind, dict_get, print, cursor_execute, run_statement, emit, view.
  destruct (d !! index) as [v|]; [|reflexivity]. simpl.
  destruct (exec_insert chunk (vector_literal v) (default (committed w) (txn w)));
    simpl; rewrite <- !app_assoc; reflexivity.
Qed.

Lemma exec_insert_rows (text lit : string) (db db' : gmap string (list Row)) :
  exec_insert text lit db = Some db' ->
  exists v, vectors_of db' = vectors_of db ++ [{| row_text := text; row_embedding := v |}].
Proof.
  unfold exec_insert, vectors_of.
  destruct (vector_in lit) as [v|]; [|discriminate].
  destruct (db !! vectors_table) as [old|] eqn:Hold; [|discriminate].
  intros [= <-]. exists v. rewrite lookup_insert_eq. reflexivity.
Qed.

(** The insertion loop started at [index]: it commits nothing and changes
    only the transaction's view; it ends normally exactly when every index
    it asks for is in the dict and the server accepts every row, and then
    the view has one more row per chunk, in order; it fails with the
    server's error or with the [KeyError] of the first index that is not in
    the dict. *)
Lemma insert_chunks_run (d : gmap Z (list Float)) (chunks : list string) :
  forall (index : Z) (w : World),
  committed (insert_chunks d index chunks w).2 = committed w /\
  exists evs,
    log (insert_chunks d index chunks w).2 = log w ++ evs /\ snapshots evs = [] /\
    match (insert_chunks d index chunks w).1 with
    | Ok _ =>
        (forall j, j < length chunks -> is_Some (d !! (index + Z.of_nat j)%Z)) /\
        exists rows,
          map row_text rows = chunks /\
          vectors_of (view (insert_chunks d index chunks w).2)
          = vectors_of (view w) ++ rows
    | Raise e =>
        e = DatabaseError \/
        exists j, j < length chunks /\ e = KeyError (index + Z.of_nat j) /\
                  d !! (index + Z.of_nat j)%Z = None /\
                  forall i, i < j -> is_Some (d !! (index + Z.of_nat i)%Z)
    end.
Proof.
  induction chunks as [|chunk rest IH]; intros index w.
  - simpl. split; [reflexivity|]. exists []. rewrite app_nil_r.
    repeat split; try reflexivity.
    + intros j Hj. lia.
    + exists []. rewrite app_nil_r. split; reflexivity.
  - rewrite insert_chunks_cons.
    destruct (d !! index) as [v|] eqn:Hd; cbv zeta.
    + set (lit := vector_literal v).
      destruct (exec_insert chunk lit (view w)) as [db|] eqn:Hins.
      * destruct (exec_insert_rows _ _ _ _ Hins) as [pv Hdb].
        set (w2 := {| committed := committed w; txn := Some db;
                      connects := connects w;
                      log := log w ++ [EvPrint lit; EvExecute (StInsert chunk lit)] |}).
        destruct (IH (index + 1)%Z w2) as (Hc & evs & Hlog & Hsnap & Hres).
        split; [exact Hc|].
        exists ([EvPrint lit; EvExecute (StInsert chunk lit)] ++ evs).
        split; [rewrite Hlog; unfold w2; simpl; rewrite <- !app_assoc; reflexivity|].
        split; [rewrite snapshots_app, Hsnap; reflexivity|].
        destruct (insert_chunks d (index + 1) rest w2).1 as [[]|e].
        -- destruct Hres as (Hall & rows & Hrows & Hview). split.
           ++ intros [|j] Hj; [rewrite Z.add_0_r, Hd; eauto|].
              replace (index + Z.of_nat (S j))%Z with (index + 1 + Z.of_nat j)%Z by lia.
              apply Hall. simpl in Hj. lia.
           ++ exists ({| row_text := chunk; row_embedding := pv |} :: rows).
              split; [simpl; now rewrite Hrows|].
              rewrite Hview. unfold view at 1, w2; simpl.
              rewrite Hdb, <- app_assoc. reflexivity.
        -- destruct Hres as [->|(j & Hj & -> & Hnone & Hbefore)]; [left; reflexivity|].
           right. exists (S j).
           replace (index + Z.of_nat (S j))%Z with (index + 1 + Z.of_nat j)%Z by lia.
           split; [simpl; lia|]. split; [reflexivity|]. split; [exact Hnone|].
           intros [|i] Hi; [rewrite Z.add_0_r, Hd; eauto|].
           replace (index + Z.of_nat (S i))%Z with (index + 1 + Z.of_nat i)%Z by lia.
           apply Hbefore. lia.
      * simpl. split; [reflexivity|].
        exists [EvPrint lit; EvExecute (StInsert chunk lit)].
        split; [reflexivity|]. split; [reflexivity|left; reflexivity].
    + simpl. split; [reflexivity|]. exists []. rewrite app_nil_r.
      split; [reflexivity|]. split; [reflexivity|].
      right. exists 0. rewrite Z.add_0_r.
      split; [lia|]. split; [reflexivity|]. split; [exact Hd|]. intros i Hi. lia.
Qed.

(** With the table in place and every vector before it accepted, the loop
    stops at the first index that is not in the dict, with its [KeyError]. *)
Lemma insert_chunks_keyerror (d : gmap Z (list Float)) (chunks : list string) :
  forall (index : Z) (w : World) (k : nat),
  k < length chunks ->
  d !! (index + Z.of_nat k)%Z = None ->
  (forall i, i < k ->
     exists v, d !! (index + Z.of_nat i)%Z = Some v /\
               is_Some (vector_in (vector_literal v))) ->
  is_Some (view w !! vectors_table) ->
  (insert_chunks d index chunks w).1 = Raise (KeyError (index + Z.of_nat k)).
Proof.
  induction chunks as [|chunk rest IH]; intros index w k Hk Hnone Hbefore [old Hold].
  - simpl in Hk. lia.
  - rewrite insert_chunks_cons. destruct k as [|k].
    + rewrite Z.add_0_r in *. rewrite Hnone. reflexivity.
    + destruct (Hbefore 0) as (v & Hv & [pv Hpv]); [lia|].
      rewrite Z.add_0_r in Hv. rewrite Hv. cbv zeta.
      unfold exec_insert. rewrite Hpv, Hold.
      replace (index + Z.of_nat (S k))%Z with (index + 1 + Z.of_nat k)%Z in * by lia.
      apply IH.
      * simpl in Hk. lia.
      * exact Hnone.
      * intros i Hi. destruct (Hbefore (S i)) as (v' & Hv' & Hpv'); [lia|].
        exists v'. split; [|exact Hpv'].
        rewrite <- Hv'. f_equal. lia.
      * unfold view. simpl. rewrite lookup_insert_eq. eauto.
Qed.

(** A [with] block around [body]. *)
Lemma with_connection_run {A} (body : M A) (w : World) :
  with_connection env body w =
  let w1 := {| committed := committed w; txn := None;
               connects := S (connects w); log := log w ++ [EvConnect] |} in
  if accepts_connection env (connects w) then
    match body w1 with
    | (Ok a, w2) =>
        (Ok a, {| committed := view w2; txn := None; connects := connects w2;
                  log := log w2 ++ [EvCommit (view w2)] |})
    | (Raise e, w2) =>
        (Raise e, {| committed := committed w2; txn := None; connects := connects w2;
                     log := log w2 ++ [EvRollback] |})
    end
  else (Raise OperationalError, w1).
Proof.
  unfold with_connection, bind, _get_connection.
  destruct (accepts_connection env (connects w)); [|reflexivity].
  simpl. destruct (body _) as [[a|e] w2]; reflexivity.
Qed.

(** The insert transaction of [process_text_file]: the [with] block around
    the insertion loop and [conn.commit()].  Either every row of the document
    is committed, in one step, or nothing is. *)
Lemma insert_block_run (d : gmap Z (list Float)) (chunks : list string) (w : World) :
  let r := with_connection env
             (bind (insert_chunks d 0 chunks) (fun _ => conn_commit)) w in
  exists evs,
    log r.2 = log w ++ EvConnect :: evs /\
    match r.1 with
    | Ok _ =>
        (forall j, j < length chunks -> is_Some (d !! Z.of_nat j)) /\
        exists rows,
          map row_text rows = chunks /\
          vectors_of (committed r.2) = vectors_of (committed w) ++ rows /\
          Forall (fun db => vectors_of db = vectors_of (committed w) ++ rows)
                 (snapshots evs)
    | Raise e =>
        committed r.2 = committed w /\ snapshots evs = [] /\
        (e = OperationalError \/ e = DatabaseError \/
         exists j, j < length chunks /\ e = KeyError (Z.of_nat j) /\
                   d !! Z.of_nat j = None /\
                   forall i, i < j -> is_Some (d !! Z.of_nat i))
    end.
Proof.
  cbv zeta. rewrite with_connection_run. cbv zeta.
  destruct (accepts_connection env (connects w)).
  2:{ simpl. exists []. split; [reflexivity|]. repeat split; auto. }
  set (w1 := {| committed := committed w; txn := None;
                connects := S (connects w); log := log w ++ [EvConnect] |}).
  destruct (insert_chunks_run d chunks 0 w1) as (Hc & evs & Hlog & Hsnap & Hres).
  unfold bind.
  destruct (insert_chunks d 0 chunks w1) as [[[]|e] w2]; simpl in Hc, Hlog, Hres.
  - destruct Hres as (Hall & rows & Hrows & Hview).
    unfold view at 2 in Hview. simpl in Hview.
    unfold conn_commit. simpl.
    exists (evs ++ [EvCommit (view w2); EvCommit (view w2)]).
    split; [rewrite Hlog; unfold w1, view; simpl; rewrite <- !app_assoc; reflexivity|].
    split; [exact Hall|]. exists rows. split; [exact Hrows|].
    split; [exact Hview|].
    rewrite snapshots_app, Hsnap. simpl. repeat constructor; exact Hview.
  - simpl. exists (evs ++ [EvRollback]).
    split; [rewrite Hlog; unfold w1; simpl; rewrite <- !app_assoc; reflexivity|].
    split; [exact Hc|]. split; [rewrite snapshots_app, Hsnap; reflexivity|].
    right. exact Hres.
Qed.

(** The same for the whole insert transaction, when the connection is
    accepted. *)
Lemma insert_block_keyerror (d : gmap Z (list Float)) (chunks : list string)
  (w : World) (k : nat) :
  k < length chunks ->
  d !! Z.of_nat k = None ->
  (forall i, i < k ->
     exists v, d !! Z.of_nat i = Some v /\ is_Some (vector_in (vector_literal v))) ->
  accepts_connection env (connects w) = true ->
  is_Some (committed w !! vectors_table) ->
  (with_connection env (bind (insert_chunks d 0 chunks) (fun _ => conn_commit)) w).1
  = Raise (KeyError (Z.of_nat k)).
Proof.
  intros Hk Hnone Hbefore Hconn Htable.
  rewrite with_connection_run. cbv zeta. rewrite Hconn. unfold bind.
  set (w1 := {| committed := committed w; txn := None;
                connects := S (connects w); log := log w ++ [EvConnect] |}).
  pose proof (insert_chunks_keyerror d chunks 0 w1 k Hk Hnone Hbefore Htable) as Hrun.
  destruct (insert_chunks d 0 chunks w1) as [[[]|e] w2]; simpl in Hrun;
    [discriminate|]. injection Hrun as ->. reflexivity.
Qed.

Variable chunk_text : string -> Z -> Z -> result (list string).

(** [process_text_file] without the reset, step by step. *)
Lemma process_text_file_keep_run (self : TextProcessor) (file_name : string)
  (chunk_size overlap dimensions : Z) (w : World) :
  process_text_file env chunk_text self file_name chunk_size overlap dimensions false w =
  let w1 := emit (EvOpen file_name) w in
  match files env file_name with
  | None => (Raise OSError, w1)
  | Some content =>
      match chunk_text content chunk_size overlap with
      | Raise e => (Raise e, w1)
      | Ok chunks =>
          let payload := embeddings_payload (embeddings_client self) chunks dimensions in
          let w2 := emit (EvPost payload) w1 in
          match embeddings_service env payload with
          | None => (Raise HTTPError, w2)
          | Some data =>
              with_connection env
                (bind (insert_chunks (index_embeddings data) 0 chunks)
                      (fun _ => conn_commit)) w2
          end
      end
  end.
Proof.
  unfold process_text_file, bind at 1, ret, bind at 1, open_read. cbv zeta.
  destruct (files env file_name) as [content|]; [|reflexivity].
  unfold bind at 1, lift.
  destruct (chunk_text content chunk_size overlap) as [chunks|e]; [|reflexivity].
  unfold bind at 1, get_embeddings, bind at 1, requests_post. cbv zeta.
  destruct (embeddings_service env _) as [data|]; reflexivity.
Qed.

(** With the reset, the rest runs only after [_truncate_table] returned. *)
Lemma process_text_file_reset_run (self : TextProcessor) (file_name : string)
  (chunk_size overlap dimensions : Z) (w : World) :
  process_text_file env chunk_text self file_name chunk_size overlap dimensions true w =
  match _truncate_table env self vectors_table w with
  | (Ok _, w1) =>
      process_text_file env chunk_text self file_name chunk_size overlap dimensions false w1
  | (Raise e, w1) => (Raise e, w1)
  end.
Proof.
  unfold process_text_file, bind at 1.
  destruct (_truncate_table env self vectors_table w) as [[[]|e] w1]; reflexivity.
Qed.

(** What [process_text_file] without the reset leaves behind: it opens the
    file first; if it returns, the table has gained one row per chunk, in
    order, and every commit showed exactly that; if it raises, the database
    is as it was and nothing was committed. *)
Lemma process_text_file_keep_spec (self : TextProcessor) (file_name : string)
  (chunk_size overlap dimensions : Z) (w : World) :
  let r := process_text_file env chunk_text self file_name chunk_size overlap
             dimensions false w in
  exists evs,
    log r.2 = log w ++ EvOpen file_name :: evs /\
    match r.1 with
    | Ok _ =>
        exists content chunks rows,
          files env file_name = Some content /\
          chunk_text content chunk_size overlap = Ok chunks /\
          map row_text rows = chunks /\
          vectors_of (committed r.2) = vectors_of (committed w) ++ rows /\
          Forall (fun db => vectors_of db = vectors_of (committed w) ++ rows)
                 (snapshots evs)
    | Raise _ => committed r.2 = committed w /\ snapshots evs = []
    end.
Proof.
  cbv zeta. rewrite process_text_file_keep_run. cbv zeta.
  destruct (files env file_name) as [content|] eqn:Hfile;
    [|exists []; simpl; auto].
  destruct (chunk_text content chunk_size overlap) as [chunks|e] eqn:Hchunks;
    [|exists []; simpl; auto].
  set (payload := embeddings_payload (embeddings_client self) chunks dimensions).
  destruct (embeddings_service env payload) as [data|];
    [|exists [EvPost payload]; simpl; rewrite <- app_assoc; auto].
  set (w2 := emit (EvPost payload) (emit (EvOpen file_name) w)).
  destruct (insert_block_run (index_embeddings data) chunks w2) as (evs & Hlog & Hres).
  exists (EvPost payload :: EvConnect :: evs).
  split; [rewrite Hlog; unfold w2; simpl; rewrite <- !app_assoc; reflexivity|].
  destruct (with_connection env _ w2).1 as [[]|e].
  - destruct Hres as (_ & rows & Hrows & Hvec & Hsnap).
    exists content, chunks, rows. repeat split; auto.
  - destruct Hres as (Hc & Hsnap & _). split; [exact Hc|exact Hsnap].
Qed.

End ProgramFacts.

(** ** Ingestion *)

(** C4.  Whatever the environment answers, [process_text_file] changes what
    other sessions can see of the [vectors] table in one step only.  With
    [base] the rows present when the insert transaction starts (the rows of
    before, or none after a reset): if the call returns, the table holds
    [base] followed by one row per chunk of the document, in order, and every
    state committed during the call showed either [base] or [base] with all
    of these rows; if the call raises, at whatever point of the insertion
    loop, the table holds [base] and every committed state showed [base].  A
    state with only some of the document's rows is never committed. *)
Theorem process_text_file_atomic `{Platform} (env : Env)
  (chunk_text : string -> Z -> Z -> result (list string))
  (self : TextProcessor) (file_name : string)
  (chunk_size overlap dimensions : Z) (truncate_table : bool) (w : World) :
  let r := process_text_file env chunk_text self file_name chunk_size overlap
             dimensions truncate_table w in
  exists (base : list Row) (evs : list Event),
    log r.2 = log w ++ evs /\
    (base = vectors_of (committed w) \/ (truncate_table = true /\ base = [])) /\
    match r.1 with
    | Ok _ =>
        exists content chunks rows,
          files env file_name = Some content /\
          chunk_text content chunk_size overlap = Ok chunks /\
          map row_text rows = chunks /\
          vectors_of (committed r.2) = base ++ rows /\
          Forall (fun db => vectors_of db = base \/ vectors_of db = base ++ rows)
                 (snapshots evs)
    | Raise _ =>
        vectors_of (committed r.2) = base /\
        Forall (fun db => vectors_of db = base) (snapshots evs)
    end.
Proof.
  cbv zeta. destruct truncate_table.
  - rewrite process_text_file_reset_run, truncate_table_run. cbv zeta.
    destruct (accepts_connection env (connects w)).
    + destruct (committed w !! vectors_table) as [old|] eqn:Hold.
      * set (db := <[vectors_table := []]> (committed w)).
        set (st := StComposed (truncate_statement vectors_table)).
        set (w1 := {| committed := db; txn := None; connects := S (connects w);
                      log := log w ++ [EvConnect; EvExecute st; EvCommit db; EvCommit db] |}).
        assert (Hdb : vectors_of db = [])
          by (unfold vectors_of, db; rewrite lookup_insert_eq; reflexivity).
        destruct (process_text_file_keep_spec env chunk_text self file_name
                    chunk_size overlap dimensions w1) as (evs & Hlog & Hres).
        exists [], ([EvConnect; EvExecute st; EvCommit db; EvCommit db]
                    ++ EvOpen file_name :: evs).
        split; [rewrite Hlog; unfold w1; simpl; rewrite <- !app_assoc; reflexivity|].
        split; [right; auto|].
        rewrite snapshots_app. simpl.
        change (committed w1) with db in Hres. rewrite Hdb in Hres.
        destruct (process_text_file env chunk_text self file_name chunk_size
                    overlap dimensions false w1).1 as [[]|e].
        -- destruct Hres as (content & chunks & rows & Hf & Hc & Hrows & Hvec & Hsnap).
           exists content, chunks, rows. repeat split; auto.
           constructor; [left; exact Hdb|]. constructor; [left; exact Hdb|].
           eapply Forall_impl; [exact Hsnap|]. intros x Hx. right. exact Hx.
        -- destruct Hres as (Hc & Hsnap). rewrite Hc, Hsnap.
           split; [exact Hdb|]. repeat constructor; exact Hdb.
      * simpl. exists (vectors_of (committed w)), [EvConnect; EvExecute (StComposed (truncate_statement vectors_table)); EvRollback].
        repeat split; auto.
    + simpl. exists (vectors_of (committed w)), [EvConnect].
      repeat split; auto.
  - destruct (process_text_file_keep_spec env chunk_text self file_name
                chunk_size overlap dimensions w) as (evs & Hlog & Hres).
    exists (vectors_of (committed w)), (EvOpen file_name :: evs).
    split; [exact Hlog|]. split; [left; reflexivity|].
    destruct (process_text_file env chunk_text self file_name chunk_size
                overlap dimensions false w).1 as [[]|e].
    + destruct Hres as (content & chunks & rows & Hf & Hc & Hrows & Hvec & Hsnap).
      exists content, chunks, rows. repeat split; auto.
      simpl. eapply Forall_impl; [exact Hsnap|]. intros x Hx. right. exact Hx.
    + destruct Hres as (Hc & Hsnap). rewrite Hc. split; [reflexivity|].
      simpl. rewrite Hsnap. constructor.
Qed.

(** C9.  With [truncate_table = True], a database that accepts the
    connection and has the [vectors] table: the TRUNCATE is executed and
    committed (the two commits of [_truncate_table]) before the file is
    opened, and only after that can the embedding request and the insert
    transaction follow.  The emptied table is what stays if anything raises
    afterwards: the database is then exactly the committed reset, whatever
    rows the table held before, and nothing else was committed.  If nothing
    raises, the table holds the rows of this document and no others. *)
Theorem reset_is_committed_first `{Platform} (env : Env)
  (chunk_text : string -> Z -> Z -> result (list string))
  (self : TextProcessor) (file_name : string)
  (chunk_size overlap dimensions : Z) (w : World) :
  accepts_connection env (connects w) = true ->
  is_Some (committed w !! vectors_table) ->
  let r := process_text_file env chunk_text self file_name chunk_size overlap
             dimensions true w in
  let db := <[vectors_table := []]> (committed w) in
  exists evs,
    log r.2 = log w ++ [EvConnect;
                        EvExecute (StComposed (truncate_statement vectors_table));
                        EvCommit db; EvCommit db;
                        EvOpen file_name] ++ evs /\
    vectors_of db = [] /\
    match r.1 with
    | Raise _ => committed r.2 = db /\ snapshots evs = []
    | Ok _ =>
        exists content chunks rows,
          files env file_name = Some content /\
          chunk_text content chunk_size overlap = Ok chunks /\
          map row_text rows = chunks /\
          vectors_of (committed r.2) = rows
    end.
Proof.
  intros Hconn [old Hold]. cbv zeta.
  rewrite process_text_file_reset_run, truncate_table_run. cbv zeta.
  rewrite Hconn, Hold.
  set (db := <[vectors_table := []]> (committed w)).
  set (st := StComposed (truncate_statement vectors_table)).
  set (w1 := {| committed := db; txn := None; connects := S (connects w);
                log := log w ++ [EvConnect; EvExecute st; EvCommit db; EvCommit db] |}).
  assert (Hdb : vectors_of db = [])
    by (unfold vectors_of, db; rewrite lookup_insert_eq; reflexivity).
  destruct (process_text_file_keep_spec env chunk_text self file_name
              chunk_size overlap dimensions w1) as (evs & Hlog & Hres).
  exists evs.
  split; [rewrite Hlog; unfold w1; simpl; rewrite <- !app_assoc; reflexivity|].
  split; [exact Hdb|].
  destruct (process_text_file env chunk_text self file_name chunk_size
              overlap dimensions false w1).1 as [[]|e].
  - destruct Hres as (content & chunks & rows & Hf & Hc & Hrows & Hvec & _).
    exists content, chunks, rows. repeat split; auto.
    rewrite Hvec. change (committed w1) with db. now rewrite Hdb.
  - destruct Hres as (Hc & Hsnap). split; [exact Hc|exact Hsnap].
Qed.

(** A full run on the small platform: after a reset the table holds one row
    per chunk of the file, in order, and the old row is gone. *)
Example process_text_file_scenario :
  let r := process_text_file (Toy.env 3) Chunker.chunk_text Toy.processor
             "manual.txt" 4 2 1 true (Toy.world Toy.stocked_db) in
  r.1 = Ok tt /\
  map row_text (vectors_of (committed r.2)) = ["ABCD"; "CDEF"; "EFGH"] /\
  executed (log r.2) = [StComposed (truncate_statement vectors_table);
                        StInsert "ABCD" "[0]"; StInsert "CDEF" "[1]";
                        StInsert "EFGH" "[2]"].
Proof. cbv zeta. repeat split; vm_compute; reflexivity. Qed.

Lemma reset_is_committed_first_witness :
  let w := Toy.world Toy.stocked_db in
  let r := process_text_file (Toy.env 3) Chunker.chunk_text Toy.processor
             "missing.txt" 4 2 1 true w in
  let db := <[vectors_table := []]> (committed w) in
  (exists evs,
     log r.2 = log w ++ [EvConnect;
                         EvExecute (StComposed (truncate_statement vectors_table));
                         EvCommit db; EvCommit db;
                         EvOpen "missing.txt"] ++ evs /\
     vectors_of db = [] /\
     match r.1 with
     | Raise _ => committed r.2 = db /\ snapshots evs = []
     | Ok _ =>
         exists content chunks rows,
           files (Toy.env 3) "missing.txt" = Some content /\
           Chunker.chunk_text content 4 2 = Ok chunks /\
           map row_text rows = chunks /\
           vectors_of (committed r.2) = rows
     end) /\
  r.1 = Raise OSError /\
  vectors_of (committed w) = Toy.old_rows /\
  vectors_of (committed r.2) = [].
Proof.
  cbv zeta. split.
  - apply (reset_is_committed_first (Toy.env 3) Chunker.chunk_text Toy.processor
             "missing.txt" 4 2 1 (Toy.world Toy.stocked_db)).
    + reflexivity.
    + eexists. vm_compute. reflexivity.
  - vm_compute. repeat split; reflexivity.
Defined.

(** With an embedding missing, [process_text_file] without the reset raises
    and leaves the database as it was. *)
Lemma process_text_file_keep_missing `{Platform} (env : Env)
  (chunk_text : string -> Z -> Z -> result (list string))
  (self : TextProcessor) (file_name : string)
  (chunk_size overlap dimensions : Z) (w : World)
  (content : string) (chunks : list string) (data : list (Z * list Float)) (k : nat) :
  files env file_name = Some content ->
  chunk_text content chunk_size overlap = Ok chunks ->
  embeddings_service env
    (embeddings_payload (embeddings_client self) chunks dimensions) = Some data ->
  k < length chunks ->
  index_embeddings data !! Z.of_nat k = None ->
  let r := process_text_file env chunk_text self file_name chunk_size overlap
             dimensions false w in
  exists e evs,
    r.1 = Raise e /\
    (e = OperationalError \/ e = DatabaseError \/
     exists j, j <= k /\ e = KeyError (Z.of_nat j) /\
               index_embeddings data !! Z.of_nat j = None /\
               forall i, i < j -> is_Some (index_embeddings data !! Z.of_nat i)) /\
    log r.2 = log w ++ evs /\ snapshots evs = [] /\
    committed r.2 = committed w /\
    (accepts_connection env (connects w) = true ->
     is_Some (committed w !! vectors_table) ->
     (forall i, i < k ->
        exists v, index_embeddings data !! Z.of_nat i = Some v /\
                  is_Some (vector_in (vector_literal v))) ->
     e = KeyError (Z.of_nat k)).
Proof.
  intros Hfile Hchunks Hdata Hk Hmiss. cbv zeta.
  rewrite process_text_file_keep_run. cbv zeta. rewrite Hfile, Hchunks, Hdata.
  set (payload := embeddings_payload (embeddings_client self) chunks dimensions).
  set (w2 := emit (EvPost payload) (emit (EvOpen file_name) w)).
  destruct (insert_block_run env (index_embeddings data) chunks w2)
    as (evs & Hlog & Hres).
  pose proof (insert_block_keyerror env (index_embeddings data) chunks w2 k Hk Hmiss)
    as Hkey.
  destruct (with_connection env _ w2) as [[[]|e] w3]; simpl in Hlog, Hres, Hkey.
  - destruct Hres as (Hall & _). destruct (Hall k Hk) as [v Hv]. congruence.
  - destruct Hres as (Hc & Hsnap & Hcls). simpl.
    exists e, ([EvOpen file_name; EvPost payload; EvConnect] ++ evs).
    split; [reflexivity|]. split.
    + destruct Hcls as [->|[->|(j & Hj & -> & Hnone & Hbefore)]]; auto.
      right; right. exists j. repeat split; auto.
      destruct (Nat.le_gt_cases j k) as [Hle|Hgt]; [exact Hle|].
      destruct (Hbefore k Hgt) as [v Hv]. congruence.
    + split; [rewrite Hlog; unfold w2; simpl; rewrite <- !app_assoc; reflexivity|].
      split; [rewrite snapshots_app, Hsnap; reflexivity|]. split; [exact Hc|].
      intros Hconn Htable Hbefore.
      specialize (Hkey Hbefore Hconn Htable). congruence.
Qed.

(** C3 (as amended).  If the embedding map returned for a document's chunks
    misses an index below the number of chunks, [process_text_file] does not
    return: it raises -- the [KeyError] of the dict lookup at the first
    missing index, unless the database fails first ([OperationalError] on
    connecting, [DatabaseError] on a statement) -- and never
    [EmbeddingUnavailable].  No row of the document is committed: the table
    ends as it was, or empty after a reset, and every state committed during
    the call showed it so.  When the database accepts every connection, has
    the table and accepts the vectors before the missing index [k], the
    first missing one, the error is [KeyError k]. *)
Theorem missing_embedding_aborts `{Platform} (env : Env)
  (chunk_text : string -> Z -> Z -> result (list string))
  (self : TextProcessor) (file_name : string)
  (chunk_size overlap dimensions : Z) (truncate_table : bool) (w : World)
  (content : string) (chunks : list string) (data : list (Z * list Float)) (k : nat) :
  files env file_name = Some content ->
  chunk_text content chunk_size overlap = Ok chunks ->
  embeddings_service env
    (embeddings_payload (embeddings_client self) chunks dimensions) = Some data ->
  k < length chunks ->
  index_embeddings data !! Z.of_nat k = None ->
  let r := process_text_file env chunk_text self file_name chunk_size overlap
             dimensions truncate_table w in
  exists e evs,
    r.1 = Raise e /\
    e <> EmbeddingUnavailable /\
    (e = OperationalError \/ e = DatabaseError \/
     exists j, j <= k /\ e = KeyError (Z.of_nat j) /\
               index_embeddings data !! Z.of_nat j = None /\
               forall i, i < j -> is_Some (index_embeddings data !! Z.of_nat i)) /\
    log r.2 = log w ++ evs /\
    (vectors_of (committed r.2) = vectors_of (committed w) \/
     (truncate_table = true /\ vectors_of (committed r.2) = [])) /\
    Forall (fun db => vectors_of db = vectors_of (committed r.2)) (snapshots evs) /\
    ((forall n, accepts_connection env n = true) ->
     is_Some (committed w !! vectors_table) ->
     (forall i, i < k ->
        exists v, index_embeddings data !! Z.of_nat i = Some v /\
                  is_Some (vector_in (vector_literal v))) ->
     e = KeyError (Z.of_nat k)).
Proof.
  intros Hfile Hchunks Hdata Hk Hmiss. cbv zeta.
  assert (Hkind : forall e,
    (e = OperationalError \/ e = DatabaseError \/
     exists j, j <= k /\ e = KeyError (Z.of_nat j) /\
               index_embeddings data !! Z.of_nat j = None /\
               forall i, i < j -> is_Some (index_embeddings data !! Z.of_nat i)) ->
    e <> EmbeddingUnavailable).
  { intros e [->|[->|(j & _ & -> & _)]]; discriminate. }
  destruct truncate_table.
  - rewrite process_text_file_reset_run, truncate_table_run. cbv zeta.
    destruct (accepts_connection env (connects w)) eqn:Hacc.
    + destruct (committed w !! vectors_table) as [old|] eqn:Hold.
      * set (db := <[vectors_table := []]> (committed w)).
        set (st := StComposed (truncate_statement vectors_table)).
        set (w1 := {| committed := db; txn := None; connects := S (connects w);
                      log := log w ++ [EvConnect; EvExecute st; EvCommit db; EvCommit db] |}).
        assert (Hdb : vectors_of db = [])
          by (unfold vectors_of, db; rewrite lookup_insert_eq; reflexivity).
        destruct (process_text_file_keep_missing env chunk_text self file_name
                    chunk_size overlap dimensions w1 content chunks data k
                    Hfile Hchunks Hdata Hk Hmiss)
          as (e & evs & Hr & Hcls & Hlog & Hsnap & Hc & Hkey).
        exists e, ([EvConnect; EvExecute st; EvCommit db; EvCommit db] ++ evs).
        split; [exact Hr|]. split; [apply Hkind, Hcls|]. split; [exact Hcls|].
        split; [rewrite Hlog; unfold w1; simpl; rewrite <- !app_assoc; reflexivity|].
        rewrite Hc. change (committed w1) with db. rewrite Hdb.
        split; [right; auto|]. split.
        -- rewrite snapshots_app, Hsnap. simpl. repeat constructor; exact Hdb.
        -- intros Hall _ Hbefore. apply Hkey; [apply Hall| |exact Hbefore].
           change (committed w1) with db. unfold db.
           rewrite lookup_insert_eq. eauto.
      * simpl. exists DatabaseError, [EvConnect; EvExecute (StComposed (truncate_statement vectors_table)); EvRollback].
        split; [reflexivity|]. split; [discriminate|]. split; [auto|].
        split; [reflexivity|]. split; [left; reflexivity|]. split; [constructor|].
        intros _ [old Hsome] _. congruence.
    + simpl. exists OperationalError, [EvConnect].
      split; [reflexivity|]. split; [discriminate|]. split; [auto|].
      split; [reflexivity|]. split; [left; reflexivity|]. split; [constructor|].
      intros Hall. rewrite Hall in Hacc. discriminate.
  - destruct (process_text_file_keep_missing env chunk_text self file_name
                chunk_size overlap dimensions w content chunks data k
                Hfile Hchunks Hdata Hk Hmiss)
      as (e & evs & Hr & Hcls & Hlog & Hsnap & Hc & Hkey).
    exists e, evs.
    split; [exact Hr|]. split; [apply Hkind, Hcls|]. split; [exact Hcls|].
    split; [exact Hlog|]. rewrite Hc. split; [left; reflexivity|].
    split; [rewrite Hsnap; constructor|].
    intros Hall Htable Hbefore. apply Hkey; [apply Hall|exact Htable|exact Hbefore].
Qed.

Lemma missing_embedding_aborts_witness :
  let w := Toy.world Toy.stocked_db in
  let data := Toy.two_embeddings in
  let r := process_text_file (Toy.env 2) Chunker.chunk_text Toy.processor
             "manual.txt" 4 2 1 false w in
  exists e evs,
    r.1 = Raise e /\
    e <> EmbeddingUnavailable /\
    (e = OperationalError \/ e = DatabaseError \/
     exists j, j <= 2 /\ e = KeyError (Z.of_nat j) /\
               index_embeddings data !! Z.of_nat j = None /\
               forall i, i < j -> is_Some (index_embeddings data !! Z.of_nat i)) /\
    log r.2 = log w ++ evs /\
    (vectors_of (committed r.2) = vectors_of (committed w) \/
     (false = true /\ vectors_of (committed r.2) = [])) /\
    Forall (fun db => vectors_of db = vectors_of (committed r.2)) (snapshots evs) /\
    ((forall n, accepts_connection (Toy.env 2) n = true) ->
     is_Some (committed w !! vectors_table) ->
     (forall i, i < 2 ->
        exists v : list (@Float Toy.platform),
          index_embeddings data !! Z.of_nat i = Some v /\
          is_Some (@vector_in Toy.platform (vector_literal v))) ->
     e = KeyError (Z.of_nat 2)).
Proof.
  apply (missing_embedding_aborts (Toy.env 2) Chunker.chunk_text Toy.processor
           "manual.txt" 4 2 1 false (Toy.world Toy.stocked_db)
           "ABCDEFGH" ["ABCD"; "CDEF"; "EFGH"] Toy.two_embeddings 2).
  - reflexivity.
  - reflexivity.
  - reflexivity.
  - simpl. lia.
  - vm_compute. reflexivity.
Defined.

(** C3 as stated does not hold: with three chunks and an embedding map that
    has the indices 0 and 1 only, the call raises [KeyError 2], which is not
    [EmbeddingUnavailable]. *)
Lemma missing_embedding_counterexample :
  let data := Toy.two_embeddings in
  let r := process_text_file (Toy.env 2) Chunker.chunk_text Toy.processor
             "manual.txt" 4 2 1 false (Toy.world Toy.stocked_db) in
  Chunker.chunk_text "ABCDEFGH" 4 2 = Ok ["ABCD"; "CDEF"; "EFGH"] /\
  embeddings_service (Toy.env 2)
    (embeddings_payload Toy.client ["ABCD"; "CDEF"; "EFGH"] 1) = Some data /\
  index_embeddings data !! 2%Z = None /\
  r.1 = Raise (KeyError 2) /\
  r.1 <> Raise EmbeddingUnavailable.
Proof.
  cbv zeta. repeat split; try (vm_compute; reflexivity).
  vm_compute. discriminate.
Qed.

(** ** Search *)

Section SearchFacts.
Context `{Platform}.
Variable env : Env.

#[global] Instance by_distance_total : Total by_distance.
Proof. intros a b. apply float_le_total. Qed.

#[global] Instance by_distance_trans : Transitive by_distance.
Proof. intros a b c. apply float_le_trans. Qed.

Lemma StronglySorted_lookup {A} (R : relation A) (l : list A) :
  StronglySorted R l ->
  forall i j x y, i < j -> l !! i = Some x -> l !! j = Some y -> R x y.
Proof.
  induction 1 as [|a l Hl IH Hall]; intros i j x y Hij Hi Hj.
  - rewrite lookup_nil in Hi. discriminate.
  - destruct j as [|j]; [lia|]. simpl in Hj. destruct i as [|i]; simpl in Hi.
    + injection Hi as <-. rewrite Forall_forall in Hall.
      apply Hall. eapply list_elem_of_lookup_2, Hj.
    + apply (IH i j); [lia|exact Hi|exact Hj].
Qed.

(** The rows the select list produces from the rows the WHERE clause kept,
    when both use the same operator. *)
Lemma sql_where_project (op : DistanceOp) (q : pgvector) (bound : Float)
  (rows : list Row) :
  forall kept, sql_where op q bound rows = Some kept ->
  sql_project op q kept = Some (within_threshold op q bound rows).
Proof.
  induction rows as [|r rest IH]; intros kept; simpl.
  - intros [= <-]. reflexivity.
  - destruct (vector_distance op (row_embedding r) q) as [d|] eqn:Hd; [|discriminate].
    destruct (sql_where op q bound rest) as [kept'|]; [|discriminate].
    intros [= <-]. specialize (IH kept' eq_refl).
    destruct (float_lt d bound); simpl; [rewrite Hd, IH|rewrite IH]; reflexivity.
Qed.

Lemma sql_where_defined (op : DistanceOp) (q : pgvector) (bound : Float)
  (rows : list Row) :
  Forall (fun r => is_Some (vector_distance op (row_embedding r) q)) rows ->
  is_Some (sql_where op q bound rows).
Proof.
  induction 1 as [|r rest [d Hd] _ [kept IH]]; simpl; [eauto|].
  rewrite Hd, IH. eauto.
Qed.

Lemma parse_distance_operator (search_mode : SearchMode) :
  parse_op (distance_operator search_mode) = Some (selected_metric search_mode).
Proof.
  unfold distance_operator, selected_metric.
  destruct (String.eqb search_mode EUCLIDIAN_DISTANCE); reflexivity.
Qed.

(** The search query when both operator places hold the same operator. *)
Lemma exec_select_same_op (op : string) (dop : DistanceOp) (lit : string)
  (bound : Float) (limit : Z) (db : gmap string (list Row)) :
  parse_op op = Some dop ->
  exec_select op op lit lit bound limit db =
  match vector_in lit, db !! vectors_table with
  | Some q, Some rows =>
      if (limit <? 0)%Z then None
      else match sql_where dop q bound rows with
           | Some _ =>
               Some (take (Z.to_nat limit)
                       (sql_order_by_distance (within_threshold dop q bound rows)))
           | None => None
           end
  | _, _ => None
  end.
Proof.
  intros Hop. unfold exec_select. rewrite Hop.
  destruct (vector_in lit) as [q|]; [|reflexivity].
  destruct (db !! vectors_table) as [rows|]; [|reflexivity].
  destruct (limit <? 0)%Z; [reflexivity|].
  destruct (sql_where dop q bound rows) as [kept|] eqn:Hw; [|reflexivity].
  rewrite (sql_where_project _ _ _ _ _ Hw). reflexivity.
Qed.

(** [search], step by step. *)
Lemma search_run (self : TextProcessor) (search_mode : SearchMode)
  (user_request : string) (top_k : Z) (min_score_threshold : Float)
  (dimensions : Z) (w : World) :
  search env self search_mode user_request top_k min_score_threshold dimensions w =
  let payload := embeddings_payload (embeddings_client self) [user_request] dimensions in
  let w1 := emit (EvPost payload) w in
  match embeddings_service env payload with
  | None => (Raise HTTPError, w1)
  | Some data =>
      match index_embeddings data !! 0%Z with
      | None => (Raise (KeyError 0), w1)
      | Some qv =>
          let lit := vector_literal qv in
          let op := distance_operator search_mode in
          with_connection env
            (cursor_execute (StSelect op op lit lit min_score_threshold top_k)) w1
      end
  end.
Proof.
  unfold search, bind at 1, get_embeddings, bind at 1, requests_post. cbv zeta.
  destruct (embeddings_service env _) as [data|]; [|reflexivity].
  unfold ret, bind at 1, dict_get.
  destruct (index_embeddings data !! 0%Z) as [qv|]; reflexivity.
Qed.

(** The effects of [search] and the one error it never raises: the request
    to the embedding service comes first, whatever the arguments; at most
    one statement is sent, the search query with one operator text in both
    places. *)
Lemma search_trace (self : TextProcessor) (search_mode : SearchMode)
  (user_request : string) (top_k : Z) (min_score_threshold : Float)
  (dimensions : Z) (w : World) :
  let r := search env self search_mode user_request top_k min_score_threshold
             dimensions w in
  let op := distance_operator search_mode in
  r.1 <> Raise ConfigurationError /\
  exists evs,
    log r.2 = log w ++ EvPost (embeddings_payload (embeddings_client self)
                                 [user_request] dimensions) :: evs /\
    (executed evs = [] \/
     exists lit, executed evs = [StSelect op op lit lit min_score_threshold top_k]).
Proof.
  cbv zeta. rewrite search_run. cbv zeta.
  destruct (embeddings_service env _) as [data|];
    [|split; [discriminate|exists []; auto]].
  destruct (index_embeddings data !! 0%Z) as [qv|];
    [|split; [discriminate|exists []; auto]].
  rewrite with_connection_run. cbv zeta.
  destruct (accepts_connection env _);
    [|split; [discriminate|exists [EvConnect]; simpl; rewrite <- app_assoc; auto]].
  unfold cursor_execute.
  set (st := StSelect _ _ _ _ _ _).
  destruct (run_statement st _) as [[v rows]|]; simpl.
  - split; [discriminate|].
    eexists [EvConnect; EvExecute st; EvCommit _].
    split; [rewrite <- !app_assoc; reflexivity|]. right. eexists. reflexivity.
  - split; [discriminate|].
    exists [EvConnect; EvExecute st; EvRollback].
    split; [rewrite <- !app_assoc; reflexivity|]. right. eexists. reflexivity.
Qed.

(** When the service answers with the query vector, the database accepts the
    connection and the vector, and every stored vector has a distance to it,
    [search] returns the first [top_k] of the rows within the threshold, in
    distance order. *)
Lemma search_ok (self : TextProcessor) (search_mode : SearchMode)
  (user_request : string) (top_k : Z) (min_score_threshold : Float)
  (dimensions : Z) (w : World)
  (data : list (Z * list Float)) (qv : list Float) (q : pgvector) (rows : list Row) :
  embeddings_service env
    (embeddings_payload (embeddings_client self) [user_request] dimensions) = Some data ->
  index_embeddings data !! 0%Z = Some qv ->
  accepts_connection env (connects w) = true ->
  vector_in (vector_literal qv) = Some q ->
  committed w !! vectors_table = Some rows ->
  Forall (fun r => is_Some (vector_distance (selected_metric search_mode)
                              (row_embedding r) q)) rows ->
  (0 <= top_k)%Z ->
  (search env self search_mode user_request top_k min_score_threshold dimensions w).1
  = Ok (take (Z.to_nat top_k)
          (sql_order_by_distance
             (within_threshold (selected_metric search_mode) q min_score_threshold rows))).
Proof.
  intros Hdata Hqv Hconn Hq Hrows Hdist Hk.
  rewrite search_run. cbv zeta. rewrite Hdata, Hqv, with_connection_run. cbv zeta.
  simpl connects. rewrite Hconn. unfold cursor_execute, run_statement. simpl.
  rewrite (exec_select_same_op _ _ _ _ _ _ (parse_distance_operator search_mode)).
  rewrite Hq, Hrows.
  destruct (Z.ltb_spec top_k 0) as [?|_]; [lia|].
  destruct (sql_where_defined (selected_metric search_mode) q min_score_threshold
              rows Hdist) as [kept ->].
  reflexivity.
Qed.

End SearchFacts.



(** The scenarios of the specification on the small platform: two of three
    rows are within the threshold and come nearest first; with [top_k = 1]
    only the nearest is returned; with a threshold below every distance the
    result is empty. *)
Example search_scenarios :
  let w := Toy.world Toy.three_db in
  (search (Toy.env 1) Toy.processor EUCLIDIAN_DISTANCE "query" 5 5%Z 1 w).1
  = Ok [Toy.hit "near" 1; Toy.hit "middle" 4] /\
  (search (Toy.env 1) Toy.processor EUCLIDIAN_DISTANCE "query" 1 5%Z 1 w).1
  = Ok [Toy.hit "near" 1] /\
  (search (Toy.env 1) Toy.processor EUCLIDIAN_DISTANCE "query" 5 1%Z 1 w).1
  = Ok [].
Proof. vm_compute. repeat split; reflexivity. Qed.

(** Both sides of an equivalence about the mode, by comparing the mode with
    [EUCLIDIAN_DISTANCE]. *)
Ltac mode_cases m :=
  unfold distance_operator, selected_metric;
  destruct (String.eqb_spec m EUCLIDIAN_DISTANCE);
  split; intros; try discriminate; auto; contradiction.

(** C7 (as amended).  [search] checks none of its arguments: for every
    [top_k] and [dimensions], positive or not, its first effect is the
    request to the embedding service, carrying [dimensions] as given, and it
    never raises [ConfigurationError]; whether such values are refused is
    left to the service and to the database. *)
Theorem search_does_not_validate `{Platform} (env : Env) (self : TextProcessor)
  (search_mode : SearchMode) (user_request : string) (top_k : Z)
  (min_score_threshold : Float) (dimensions : Z) (w : World) :
  let r := search env self search_mode user_request top_k min_score_threshold
             dimensions w in
  r.1 <> Raise ConfigurationError /\
  exists evs,
    log r.2 = log w ++ EvPost {| payload_input := [user_request];
                                 payload_model := deployment_name (embeddings_client self);
                                 payload_dimensions := dimensions |} :: evs.
Proof.
  cbv zeta.
  destruct (search_trace env self search_mode user_request top_k
              min_score_threshold dimensions w) as (Hne & evs & Hlog & _).
  split; [exact Hne|]. exists evs. exact Hlog.
Qed.

(** C7 as stated does not hold: with [top_k = 0] the call asks the service,
    connects, sends the query and returns the empty list; with
    [dimensions = 0] it asks the service, which refuses, and the error is the
    service's, not [ConfigurationError]. *)
Lemma search_validation_counterexample :
  let w := Toy.world Toy.three_db in
  let r0 := search (Toy.env 1) Toy.processor EUCLIDIAN_DISTANCE "query" 0 5%Z 1 w in
  let r1 := search (Toy.env 1) Toy.processor EUCLIDIAN_DISTANCE "query" 5 5%Z 0 w in
  (r0.1 = Ok [] /\
   log r0.2 = [EvPost (embeddings_payload Toy.client ["query"] 1); EvConnect;
               EvExecute (Toy.euclidean_query 5 0);
               EvCommit Toy.three_db]) /\
  (r1.1 = Raise HTTPError /\
   log r1.2 = [EvPost (embeddings_payload Toy.client ["query"] 0)]) /\
  r0.1 <> Raise ConfigurationError /\ r1.1 <> Raise ConfigurationError.
Proof.
  cbv zeta. split; [|split; [|split]].
  - split; vm_compute; reflexivity.
  - split; vm_compute; reflexivity.
  - vm_compute. discriminate.
  - vm_compute. discriminate.
Qed.

(** C2.  What [search] returns is not a sequence of texts.  On a table with
    two rows within the threshold it returns two dict rows, each carrying the
    distance next to the text; and the caller's
    [context_separator.join(context_chunks)], which would accept the texts,
    raises [TypeError] on these rows. *)
Theorem search_returns_rows_not_text :
  let w := Toy.world Toy.three_db in
  let r := search (Toy.env 1) Toy.processor EUCLIDIAN_DISTANCE "query" 5 5%Z 1 w in
  r.1 = Ok [Toy.hit "near" 1; Toy.hit "middle" 4] /\
  str_join context_separator
    (map PyRealDictRow [Toy.hit "near" 1; Toy.hit "middle" 4]) = Raise TypeError /\
  str_join context_separator (map (@PyStr Toy.platform) ["near"; "middle"])
  = Ok ("near" +:+ context_separator +:+ "middle").
Proof. cbv zeta. repeat split; vm_compute; reflexivity. Qed.

(** On any non-empty result of [search] the caller's join fails. *)
Lemma str_join_rows `{Platform} (sep : string) (x : RealDictRow) (rest : list RealDictRow) :
  str_join sep (map PyRealDictRow (x :: rest)) = Raise TypeError.
Proof. reflexivity. Qed.


(** A name written to break out of the statement stays one identifier. *)
Example truncate_hostile_name :
  let name := "vectors" +:+ String dquote "; DROP TABLE users; --" in
  Sql.as_string (truncate_statement name)
  = "TRUNCATE TABLE " +:+ String dquote "vectors" +:+ String dquote (String dquote
      "; DROP TABLE users; --") +:+ String dquote ";" /\
  SqlText.parse_truncate (Sql.as_string (truncate_statement name)) = Some name.
Proof. vm_compute. split; reflexivity. Qed.

(** * Further properties *)

(** ** The embeddings client *)

Section ClientFacts.
Context `{Platform}.
Variable env : Env.

Lemma index_embeddings_snoc (data : list (Z * list Float)) (item : Z * list Float) :
  index_embeddings (data ++ [item]) = <[item.1 := item.2]> (index_embeddings data).
Proof. unfold index_embeddings. rewrite foldl_snoc. reflexivity. Qed.

(** The dict holds, for every index, what the last item with that index
    carries. *)
Lemma index_embeddings_last (data : list (Z * list Float)) (i : Z) :
  index_embeddings data !! i = last (items_at i data).
Proof.
  induction data as [|item data IH] using rev_ind; [reflexivity|].
  rewrite index_embeddings_snoc. unfold items_at. rewrite omap_app, last_app.
  fold (items_at i data). simpl.
  destruct (decide (item.1 = i)) as [->|Hne]; simpl.
  - apply lookup_insert_eq.
  - rewrite lookup_insert_ne by exact Hne. exact IH.
Qed.

Lemma get_embeddings_run (self : DialEmbeddingsClient) (input_list : list string)
  (dimensions : Z) (w : World) :
  get_embeddings env self input_list dimensions w =
  let payload := embeddings_payload self input_list dimensions in
  match embeddings_service env payload with
  | Some data => (Ok (index_embeddings data), emit (EvPost payload) w)
  | None => (Raise HTTPError, emit (EvPost payload) w)
  end.
Proof.
  unfold get_embeddings, bind, requests_post. cbv zeta.
  destruct (embeddings_service env _); reflexivity.
Qed.

End ClientFacts.

(** X1.  [get_embeddings] sends one request, with the inputs, the model name
    and the dimensions, and touches nothing else.  If the request fails it
    raises [HTTPError].  Otherwise it returns a dict in which every index
    that occurs in the response maps to the embedding of the last item that
    carries it, and no other key is present. *)
Theorem get_embeddings_last_item_wins `{Platform} (env : Env)
  (self : DialEmbeddingsClient) (input_list : list string) (dimensions : Z)
  (w : World) :
  let payload := {| payload_input := input_list;
                    payload_model := deployment_name self;
                    payload_dimensions := dimensions |} in
  let r := get_embeddings env self input_list dimensions w in
  log r.2 = log w ++ [EvPost payload] /\
  committed r.2 = committed w /\ txn r.2 = txn w /\ connects r.2 = connects w /\
  match embeddings_service env payload with
  | None => r.1 = Raise HTTPError
  | Some data =>
      exists d, r.1 = Ok d /\
                forall i, d !! i = last (items_at i data) /\
                          (is_Some (d !! i) <-> i ∈ map fst data)
  end.
Proof.
  cbv zeta. rewrite get_embeddings_run. cbv zeta.
  change (embeddings_payload self input_list dimensions)
    with {| payload_input := input_list; payload_model := deployment_name self;
            payload_dimensions := dimensions |}.
  destruct (embeddings_service env _) as [data|]; simpl; repeat split; auto.
  exists (index_embeddings data). split; [reflexivity|]. intros i.
  split; [apply index_embeddings_last|].
  rewrite index_embeddings_last, last_is_Some. unfold items_at. split.
  - intros Hne. destruct (omap _ data) as [|v vs] eqn:Hom; [contradiction|].
    assert (Hv : v ∈ omap (fun item : Z * list Float =>
                             if decide (item.1 = i) then Some item.2 else None) data)
      by (rewrite Hom; left).
    apply list_elem_of_omap in Hv as (item & Hin & Hitem).
    destruct (decide (item.1 = i)) as [<-|]; [|discriminate].
    apply list_elem_of_fmap. exists item. auto.
  - intros Hin. apply list_elem_of_fmap in Hin as (item & -> & Hin).
    intros Hnil.
    assert (Hv : item.2 ∈ omap (fun it : Z * list Float =>
                                  if decide (it.1 = item.1) then Some it.2 else None) data).
    { apply list_elem_of_omap. exists item. split; [exact Hin|].
      destruct (decide (item.1 = item.1)); [reflexivity|contradiction]. }
    rewrite Hnil in Hv. inversion Hv.
Qed.

(** X2.  When the response lists its items in input order, the item at
    position [i] carrying the index [i] (what the service returns for a
    batch), the dict maps every position to the embedding of the item at
    that position and has no other keys: it is dense over the positions of
    the response. *)
Theorem index_embeddings_in_order `{Platform} (data : list (Z * list Float)) :
  (forall i item, data !! i = Some item -> item.1 = Z.of_nat i) ->
  forall k : Z,
    index_embeddings data !! k =
    if (k <? 0)%Z then None else snd <$> data !! Z.to_nat k.
Proof.
  induction data as [|item data IH] using rev_ind; intros Hord k.
  - rewrite lookup_nil. destruct (k <? 0)%Z; reflexivity.
  - assert (Hitem : item.1 = Z.of_nat (length data)).
    { apply Hord. rewrite lookup_app_r by lia. now rewrite Nat.sub_diag. }
    assert (Hdata : forall i it, data !! i = Some it -> it.1 = Z.of_nat i).
    { intros i it Hi. apply Hord. rewrite lookup_app_l; [exact Hi|].
      eapply lookup_lt_Some, Hi. }
    rewrite index_embeddings_snoc, Hitem.
    destruct (decide (Z.of_nat (length data) = k)) as [<-|Hne].
    + rewrite lookup_insert_eq.
      destruct (Z.ltb_spec (Z.of_nat (length data)) 0) as [?|_]; [lia|].
      rewrite Nat2Z.id, lookup_app_r by lia. now rewrite Nat.sub_diag.
    + rewrite lookup_insert_ne by exact Hne. rewrite (IH Hdata k).
      destruct (Z.ltb_spec k 0) as [_|Hk]; [reflexivity|].
      destruct (Nat.lt_ge_cases (Z.to_nat k) (length data)) as [Hlt|Hge].
      * now rewrite lookup_app_l by exact Hlt.
      * rewrite (lookup_ge_None_2 data) by exact Hge.
        rewrite lookup_app_r by exact Hge.
        destruct (Z.to_nat k - length data) as [|n] eqn:Hd; [lia|reflexivity].
Qed.

Lemma index_embeddings_in_order_witness :
  index_embeddings Toy.two_embeddings !! 1%Z =
  (if (1 <? 0)%Z then None else snd <$> Toy.two_embeddings !! Z.to_nat 1) /\
  index_embeddings Toy.two_embeddings !! 2%Z =
  (if (2 <? 0)%Z then None else snd <$> Toy.two_embeddings !! Z.to_nat 2).
Proof.
  assert (Hord : forall i item, Toy.two_embeddings !! i = Some item ->
                                item.1 = Z.of_nat i).
  { intros [|[|i]] item Hi; simpl in Hi; try discriminate;
      injection Hi as <-; reflexivity. }
  split.
  - exact (index_embeddings_in_order Toy.two_embeddings Hord 1%Z).
  - exact (index_embeddings_in_order Toy.two_embeddings Hord 2%Z).
Defined.

(** ** Resetting a table *)

(** X3.  For a table name the server takes as it is (1 to 63 bytes, no
    zero byte), [_truncate_table] opens one connection and leaves no
    transaction open.  If it returns, the connection was accepted, the table
    existed, and the committed database is the one of before with that table
    emptied; if it raises, the committed database is unchanged, and the
    error is [OperationalError] for a refused connection or [DatabaseError]
    for a table that does not exist.  In every case all other tables are as
    they were. *)
Theorem truncate_table_effect `{Platform} (env : Env) (self : TextProcessor)
  (table_name : string) (w : World) :
  identifier_fits table_name = true ->
  let r := _truncate_table env self table_name w in
  txn r.2 = None /\
  connects r.2 = S (connects w) /\
  (forall t, t <> table_name -> committed r.2 !! t = committed w !! t) /\
  match r.1 with
  | Ok _ =>
      accepts_connection env (connects w) = true /\
      is_Some (committed w !! table_name) /\
      committed r.2 = <[table_name := []]> (committed w) /\
      committed r.2 !! table_name = Some []
  | Raise e =>
      committed r.2 = committed w /\
      ((e = OperationalError /\ accepts_connection env (connects w) = false) \/
       (e = DatabaseError /\ accepts_connection env (connects w) = true /\
        committed w !! table_name = None))
  end.
Proof.
  intros _. cbv zeta. rewrite truncate_table_run. cbv zeta.
  destruct (accepts_connection env (connects w)).
  - destruct (committed w !! table_name) as [rows|] eqn:Hrows; simpl.
    + repeat split; eauto.
      * intros t Ht. now rewrite lookup_insert_ne.
      * apply lookup_insert_eq.
    + repeat split; auto.
  - simpl. repeat split; auto.
Qed.

Lemma truncate_table_effect_witness :
  let w := Toy.world Toy.stocked_db in
  let r := _truncate_table (Toy.env 1) Toy.processor "vectors" w in
  txn r.2 = None /\
  connects r.2 = S (connects w) /\
  (forall t, t <> "vectors" -> committed r.2 !! t = committed w !! t) /\
  match r.1 with
  | Ok _ =>
      accepts_connection (Toy.env 1) (connects w) = true /\
      is_Some (committed w !! "vectors") /\
      committed r.2 = <["vectors" := []]> (committed w) /\
      committed r.2 !! "vectors" = Some []
  | Raise e =>
      committed r.2 = committed w /\
      ((e = OperationalError /\ accepts_connection (Toy.env 1) (connects w) = false) \/
       (e = DatabaseError /\ accepts_connection (Toy.env 1) (connects w) = true /\
        committed w !! "vectors" = None))
  end.
Proof.
  apply (truncate_table_effect (Toy.env 1) Toy.processor "vectors"
           (Toy.world Toy.stocked_db)).
  reflexivity.
Defined.

(** ** Ingestion, when everything goes well *)

Section IngestFacts.
Context `{Platform}.
Variable env : Env.
Variable chunk_text : string -> Z -> Z -> result (list string).

(** The loop on a dict that has every index it asks for, with vectors the
    server accepts. *)
Lemma insert_chunks_ok (d : gmap Z (list Float)) (chunks : list string) :
  forall (index : Z) (w : World),
  is_Some (view w !! vectors_table) ->
  (forall j, j < length chunks ->
     exists v, d !! (index + Z.of_nat j)%Z = Some v /\
               is_Some (vector_in (vector_literal v))) ->
  (insert_chunks d index chunks w).1 = Ok tt /\
  view (insert_chunks d index chunks w).2
  = <[vectors_table := vectors_of (view w) ++ document_rows d index chunks]> (view w) /\
  map row_text (document_rows d index chunks) = chunks.
Proof.
  induction chunks as [|chunk rest IH]; intros index w [old Hold] Hall.
  - simpl. split; [reflexivity|]. split; [|reflexivity].
    rewrite app_nil_r. unfold vectors_of. rewrite Hold. simpl.
    symmetry. apply insert_id, Hold.
  - rewrite insert_chunks_cons.
    destruct (Hall 0) as (v & Hv & [pv Hpv]); [simpl; lia|].
    rewrite Z.add_0_r in Hv. rewrite Hv. cbv zeta.
    unfold exec_insert. rewrite Hpv, Hold.
    set (db := <[vectors_table := old ++ [{| row_text := chunk; row_embedding := pv |}]]>
                 (view w)).
    set (w2 := {| committed := committed w; txn := Some db; connects := connects w;
                  log := log w ++ [EvPrint (vector_literal v);
                                   EvExecute (StInsert chunk (vector_literal v))] |}).
    destruct (IH (index + 1)%Z w2) as (Hok & Hview & Hmap).
    { unfold view, w2, db. simpl. rewrite lookup_insert_eq. eauto. }
    { intros j Hj. destruct (Hall (S j)) as (v' & Hv' & Hpv'); [simpl; lia|].
      exists v'. split; [|exact Hpv']. rewrite <- Hv'. f_equal. lia. }
    split; [exact Hok|]. simpl document_rows. rewrite Hv, Hpv. split.
    + rewrite Hview. change (view w2) with db. unfold db at 2.
      rewrite insert_insert_eq. f_equal.
      unfold vectors_of, db. rewrite lookup_insert_eq, Hold. simpl.
      rewrite <- app_assoc. reflexivity.
    + simpl. now rewrite Hmap.
Qed.

(** The same for [process_text_file] without the reset. *)
Lemma process_text_file_keep_ok (self : TextProcessor) (file_name : string)
  (chunk_size overlap dimensions : Z) (w : World)
  (content : string) (chunks : list string) (data : list (Z * list Float)) :
  files env file_name = Some content ->
  chunk_text content chunk_size overlap = Ok chunks ->
  embeddings_service env
    (embeddings_payload (embeddings_client self) chunks dimensions) = Some data ->
  accepts_connection env (connects w) = true ->
  is_Some (committed w !! vectors_table) ->
  (forall j, j < length chunks ->
     exists v, index_embeddings data !! Z.of_nat j = Some v /\
               is_Some (vector_in (vector_literal v))) ->
  let r := process_text_file env chunk_text self file_name chunk_size overlap
             dimensions false w in
  r.1 = Ok tt /\
  committed r.2
  = <[vectors_table := vectors_of (committed w)
                       ++ document_rows (index_embeddings data) 0 chunks]> (committed w).
Proof.
  intros Hfile Hchunks Hdata Hconn Htable Hall. cbv zeta.
  rewrite process_text_file_keep_run. cbv zeta. rewrite Hfile, Hchunks, Hdata.
  rewrite with_connection_run. cbv zeta. simpl connects. rewrite Hconn.
  set (w1 := {| committed := _; txn := None; connects := _; log := _ |}).
  destruct (insert_chunks_ok (index_embeddings data) chunks 0 w1 Htable Hall)
    as (Hok & Hview & _).
  unfold bind. destruct (insert_chunks _ 0 chunks w1) as [[[]|e] w2];
    simpl in Hok, Hview; [|discriminate].
  unfold conn_commit. simpl. split; [reflexivity|].
  unfold view at 1. simpl. exact Hview.
Qed.

End IngestFacts.

(** X4.  When the file can be read, the chunker returns, the service answers
    with an embedding for every chunk position, and the database accepts the
    connections, has the table and accepts every vector, then
    [process_text_file] returns, and the committed database differs from the
    one before in the [vectors] table only: that table holds the rows of
    before (none after a reset) followed by one row per chunk, in chunk
    order, each with the chunk as its text and the vector read from the
    literal of the embedding at the chunk's position. *)
Theorem process_text_file_stores_document `{Platform} (env : Env)
  (chunk_text : string -> Z -> Z -> result (list string))
  (self : TextProcessor) (file_name : string)
  (chunk_size overlap dimensions : Z) (truncate_table : bool) (w : World)
  (content : string) (chunks : list string) (data : list (Z * list Float)) :
  files env file_name = Some content ->
  chunk_text content chunk_size overlap = Ok chunks ->
  embeddings_service env
    (embeddings_payload (embeddings_client self) chunks dimensions) = Some data ->
  (forall n, accepts_connection env n = true) ->
  is_Some (committed w !! vectors_table) ->
  (forall j, j < length chunks ->
     exists v, index_embeddings data !! Z.of_nat j = Some v /\
               is_Some (vector_in (vector_literal v))) ->
  let r := process_text_file env chunk_text self file_name chunk_size overlap
             dimensions truncate_table w in
  let rows := document_rows (index_embeddings data) 0 chunks in
  r.1 = Ok tt /\
  committed r.2
  = <[vectors_table := (if truncate_table then [] else vectors_of (committed w)) ++ rows]>
      (committed w) /\
  map row_text rows = chunks /\
  length rows = length chunks.
Proof.
  intros Hfile Hchunks Hdata Hconn Htable Hall. cbv zeta.
  assert (Hmap : map row_text (document_rows (index_embeddings data) 0 chunks) = chunks).
  { set (w0 := {| committed := committed w; txn := None; connects := 0; log := [] |}).
    apply (insert_chunks_ok (index_embeddings data) chunks 0 w0); [exact Htable|exact Hall]. }
  assert (Hlen : length (document_rows (index_embeddings data) 0 chunks) = length chunks).
  { rewrite <- Hmap at 2. now rewrite length_map. }
  destruct truncate_table.
  - rewrite process_text_file_reset_run, truncate_table_run. cbv zeta.
    rewrite Hconn. destruct Htable as [old Hold]. rewrite Hold.
    set (db := <[vectors_table := []]> (committed w)).
    set (w1 := {| committed := db; txn := None; connects := _; log := _ |}).
    destruct (process_text_file_keep_ok env chunk_text self file_name chunk_size
                overlap dimensions w1 content chunks data Hfile Hchunks Hdata)
      as (Hok & Hdb); [apply Hconn| |exact Hall|].
    { unfold w1, db. simpl. rewrite lookup_insert_eq. eauto. }
    split; [exact Hok|]. split; [|split; [exact Hmap|exact Hlen]].
    rewrite Hdb. change (committed w1) with db. unfold db at 2.
    rewrite insert_insert_eq. f_equal.
    unfold vectors_of, db. now rewrite lookup_insert_eq.
  - destruct (process_text_file_keep_ok env chunk_text self file_name chunk_size
                overlap dimensions w content chunks data Hfile Hchunks Hdata)
      as (Hok & Hdb); [apply Hconn|exact Htable|exact Hall|].
    split; [exact Hok|]. split; [exact Hdb|]. split; [exact Hmap|exact Hlen].
Qed.

Lemma process_text_file_stores_document_witness :
  let w := Toy.world Toy.stocked_db in
  let r := process_text_file (Toy.env 3) Chunker.chunk_text Toy.processor
             "manual.txt" 4 2 1 false w in
  let rows := document_rows (index_embeddings Toy.three_embeddings) 0
                ["ABCD"; "CDEF"; "EFGH"] in
  r.1 = Ok tt /\
  committed r.2
  = <[vectors_table := (if false then [] else vectors_of (committed w)) ++ rows]>
      (committed w) /\
  map row_text rows = ["ABCD"; "CDEF"; "EFGH"] /\
  length rows = length ["ABCD"; "CDEF"; "EFGH"].
Proof.
  apply (process_text_file_stores_document (Toy.env 3) Chunker.chunk_text
           Toy.processor "manual.txt" 4 2 1 false (Toy.world Toy.stocked_db)
           "ABCDEFGH" ["ABCD"; "CDEF"; "EFGH"] Toy.three_embeddings).
  - reflexivity.
  - reflexivity.
  - reflexivity.
  - intros n. reflexivity.
  - eexists. vm_compute. reflexivity.
  - intros [|[|[|j]]] Hj; simpl in Hj; try lia;
      eexists; (split; [vm_compute; reflexivity|eexists; vm_compute; reflexivity]).
Defined.

(** ** What ingestion sends, and in which order *)

Section IngestEffects.
Context `{Platform}.
Variable env : Env.
Variable chunk_text : string -> Z -> Z -> result (list string).

Lemma posts_app (a b : list Event) : posts (a ++ b) = posts a ++ posts b.
Proof. apply omap_app. Qed.

(** The loop sends INSERT statements only, for the chunks in order, and stops
    sending at the first failure. *)
Lemma insert_chunks_statements (d : gmap Z (list Float)) (chunks : list string) :
  forall (index : Z) (w : World),
  exists evs,
    log (insert_chunks d index chunks w).2 = log w ++ evs /\
    posts evs = [] /\
    executed evs `prefix_of` insert_statements d index chunks /\
    match (insert_chunks d index chunks w).1 with
    | Ok _ => executed evs = insert_statements d index chunks /\
              length (executed evs) = length chunks
    | Raise _ => True
    end.
Proof.
  induction chunks as [|chunk rest IH]; intros index w.
  - exists []. simpl. rewrite app_nil_r. repeat split; auto.
  - rewrite insert_chunks_cons. simpl insert_statements.
    destruct (d !! index) as [v|]; cbv zeta.
    + set (lit := vector_literal v).
      destruct (exec_insert chunk lit (view w)) as [db|].
      * set (w2 := {| committed := _; txn := Some db; connects := _; log := _ |}).
        destruct (IH (index + 1)%Z w2) as (evs & Hlog & Hposts & Hpre & Hres).
        exists ([EvPrint lit; EvExecute (StInsert chunk lit)] ++ evs).
        split; [rewrite Hlog; unfold w2; simpl; rewrite <- !app_assoc; reflexivity|].
        split; [rewrite posts_app, Hposts; reflexivity|].
        rewrite executed_app. simpl. split; [apply prefix_cons, Hpre|].
        destruct (insert_chunks d (index + 1) rest w2).1; [|exact I].
        destruct Hres as [-> Hlen]. split; [reflexivity|].
        simpl. rewrite <- Hlen. reflexivity.
      * exists [EvPrint lit; EvExecute (StInsert chunk lit)]. simpl.
        split; [reflexivity|]. split; [reflexivity|].
        split; [apply prefix_cons, prefix_nil|exact I].
    + exists []. simpl. rewrite app_nil_r.
      split; [reflexivity|]. split; [reflexivity|]. split; [apply prefix_nil|exact I].
Qed.

(** [process_text_file] without the reset. *)
Lemma process_text_file_keep_effects (self : TextProcessor) (file_name : string)
  (chunk_size overlap dimensions : Z) (w : World) :
  let r := process_text_file env chunk_text self file_name chunk_size overlap
             dimensions false w in
  exists evs,
    log r.2 = log w ++ evs /\
    match files env file_name with
    | None => posts evs = [] /\ executed evs = []
    | Some content =>
        match chunk_text content chunk_size overlap with
        | Raise _ => posts evs = [] /\ executed evs = []
        | Ok chunks =>
            let payload := embeddings_payload (embeddings_client self) chunks dimensions in
            posts evs = [payload] /\
            match embeddings_service env payload with
            | None => executed evs = []
            | Some data =>
                executed evs `prefix_of`
                  insert_statements (index_embeddings data) 0 chunks /\
                match r.1 with
                | Ok _ =>
                    executed evs = insert_statements (index_embeddings data) 0 chunks /\
                    length (executed evs) = length chunks
                | Raise _ => True
                end
            end
        end
    end.
Proof.
  cbv zeta. rewrite process_text_file_keep_run. cbv zeta.
  destruct (files env file_name) as [content|];
    [|exists [EvOpen file_name]; simpl; auto].
  destruct (chunk_text content chunk_size overlap) as [chunks|e];
    [|exists [EvOpen file_name]; simpl; auto].
  set (payload := embeddings_payload (embeddings_client self) chunks dimensions).
  destruct (embeddings_service env payload) as [data|];
    [|exists [EvOpen file_name; EvPost payload]; simpl; rewrite <- app_assoc; auto].
  rewrite with_connection_run. cbv zeta.
  destruct (accepts_connection env _).
  - set (w1 := {| committed := _; txn := None; connects := _; log := _ |}).
    destruct (insert_chunks_statements (index_embeddings data) chunks 0 w1)
      as (evs & Hlog & Hposts & Hpre & Hres).
    unfold bind.
    destruct (insert_chunks _ 0 chunks w1) as [[[]|e] w2]; simpl in Hlog, Hres.
    + unfold conn_commit. simpl.
      exists ([EvOpen file_name; EvPost payload; EvConnect] ++ evs
              ++ [EvCommit (view w2); EvCommit (view w2)]).
      split; [rewrite Hlog; unfold w1, view; simpl; rewrite <- !app_assoc; reflexivity|].
      rewrite !posts_app, !executed_app, Hposts. simpl. rewrite app_nil_r.
      split; [reflexivity|]. split; [exact Hpre|exact Hres].
    + simpl. exists ([EvOpen file_name; EvPost payload; EvConnect] ++ evs ++ [EvRollback]).
      split; [rewrite Hlog; unfold w1; simpl; rewrite <- !app_assoc; reflexivity|].
      rewrite !posts_app, !executed_app, Hposts. simpl. rewrite app_nil_r.
      split; [reflexivity|]. split; [exact Hpre|exact I].
  - simpl. exists [EvOpen file_name; EvPost payload; EvConnect].
    split; [rewrite <- !app_assoc; reflexivity|].
    split; [reflexivity|]. split; [apply prefix_nil|exact I].
Qed.

End IngestEffects.

(** X5.  Whatever happens, a call of [process_text_file] makes at most one
    request to the embedding service, and only after the file was read and
    chunked; the request carries all the chunks, in order.  Apart from the
    TRUNCATE of a reset, the statements it sends are INSERTs, sent only after
    the service answered: one per chunk, in chunk order, each with the
    literal of the embedding at the chunk's position, up to the point where
    the call fails -- and all of them when it returns. *)
Theorem process_text_file_effects `{Platform} (env : Env)
  (chunk_text : string -> Z -> Z -> result (list string))
  (self : TextProcessor) (file_name : string)
  (chunk_size overlap dimensions : Z) (truncate_table : bool) (w : World) :
  let r := process_text_file env chunk_text self file_name chunk_size overlap
             dimensions truncate_table w in
  exists evs reset inserts,
    log r.2 = log w ++ evs /\
    executed evs = reset ++ inserts /\
    (reset = [] \/
     (truncate_table = true /\ reset = [StComposed (truncate_statement vectors_table)])) /\
    match files env file_name with
    | None => posts evs = [] /\ inserts = []
    | Some content =>
        match chunk_text content chunk_size overlap with
        | Raise _ => posts evs = [] /\ inserts = []
        | Ok chunks =>
            let payload := embeddings_payload (embeddings_client self) chunks dimensions in
            (posts evs = [] /\ inserts = [] /\ exists e, r.1 = Raise e) \/
            (posts evs = [payload] /\
             match embeddings_service env payload with
             | None => inserts = []
             | Some data =>
                 inserts `prefix_of`
                   insert_statements (index_embeddings data) 0 chunks /\
                 match r.1 with
                 | Ok _ =>
                     inserts = insert_statements (index_embeddings data) 0 chunks /\
                     length inserts = length chunks
                 | Raise _ => True
                 end
             end)
        end
    end.
Proof.
  cbv zeta.
  assert (Hfail : forall (e : Exn) (w1 : World) (evs : list Event),
    posts evs = [] -> 
    match files env file_name with
    | None => posts evs = [] /\ @nil Statement = []
    | Some content =>
        match chunk_text content chunk_size overlap with
        | Raise _ => posts evs = [] /\ @nil Statement = []
        | Ok chunks =>
            let payload := embeddings_payload (embeddings_client self) chunks dimensions in
            (posts evs = [] /\ @nil Statement = [] /\
             exists e', (@Raise unit e, w1).1 = Raise e') \/
            (posts evs = [payload] /\
             match embeddings_service env payload with
             | None => @nil Statement = []
             | Some data =>
                 [] `prefix_of` insert_statements (index_embeddings data) 0 chunks /\
                 match (@Raise unit e, w1).1 with
                 | Ok _ =>
                     [] = insert_statements (index_embeddings data) 0 chunks /\
                     length (@nil Statement) = length chunks
                 | Raise _ => True
                 end
             end)
        end
    end).
  { intros e w1 evs Hp. destruct (files env file_name) as [content|]; [|auto].
    destruct (chunk_text content chunk_size overlap); [|auto].
    left. simpl. eauto. }
  destruct truncate_table.
  - rewrite process_text_file_reset_run, truncate_table_run. cbv zeta.
    set (st := StComposed (truncate_statement vectors_table)).
    destruct (accepts_connection env (connects w)).
    + destruct (committed w !! vectors_table) as [old|].
      * set (db := <[vectors_table := []]> (committed w)).
        set (w1 := {| committed := db; txn := None; connects := _; log := _ |}).
        destruct (process_text_file_keep_effects env chunk_text self file_name
                    chunk_size overlap dimensions w1) as (evs & Hlog & Hres).
        exists ([EvConnect; EvExecute st; EvCommit db; EvCommit db] ++ evs),
               [st], (executed evs).
        split; [rewrite Hlog; unfold w1; simpl; rewrite <- !app_assoc; reflexivity|].
        split; [rewrite executed_app; reflexivity|]. split; [right; auto|].
        rewrite posts_app. simpl.
        destruct (files env file_name) as [content|]; [|exact Hres].
        destruct (chunk_text content chunk_size overlap) as [chunks|e]; [|exact Hres].
        right. exact Hres.
      * exists [EvConnect; EvExecute st; EvRollback], [st], [].
        split; [reflexivity|]. split; [reflexivity|]. split; [right; auto|].
        apply Hfail. reflexivity.
    + exists [EvConnect], [], [].
      split; [reflexivity|]. split; [reflexivity|]. split; [left; reflexivity|].
      apply Hfail. reflexivity.
  - destruct (process_text_file_keep_effects env chunk_text self file_name
                chunk_size overlap dimensions w) as (evs & Hlog & Hres).
    exists evs, [], (executed evs).
    split; [exact Hlog|]. split; [reflexivity|]. split; [left; reflexivity|].
    destruct (files env file_name) as [content|]; [|exact Hres].
    destruct (chunk_text content chunk_size overlap) as [chunks|e]; [|exact Hres].
    right. exact Hres.
Qed.

(** ** More about search *)

Section SearchMore.
Context `{Platform}.
Variable env : Env.

(** The search query changes nothing in the database it runs on. *)
Lemma run_select_view (sop wop sarg warg : string) (bound : Float) (limit : Z)
  (db db' : gmap string (list Row)) (rows : list RealDictRow) :
  run_statement (StSelect sop wop sarg warg bound limit) db = Some (db', rows) ->
  db' = db /\ exec_select sop wop sarg warg bound limit db = Some rows.
Proof.
  simpl. destruct (exec_select sop wop sarg warg bound limit db) as [out|];
    [|discriminate].
  intros [= <- <-]. auto.
Qed.

(** Every way [search] can end. *)
Lemma search_cases (self : TextProcessor) (search_mode : SearchMode)
  (user_request : string) (top_k : Z) (min_score_threshold : Float)
  (dimensions : Z) (w : World) :
  let r := search env self search_mode user_request top_k min_score_threshold
             dimensions w in
  let payload := embeddings_payload (embeddings_client self) [user_request] dimensions in
  let op := distance_operator search_mode in
  committed r.2 = committed w /\
  exists evs,
    log r.2 = log w ++ EvPost payload :: evs /\
    Forall (fun db => db = committed w) (snapshots evs) /\
    ((embeddings_service env payload = None /\ r.1 = Raise HTTPError /\
      evs = [] /\ connects r.2 = connects w /\ txn r.2 = txn w) \/
     (exists data, embeddings_service env payload = Some data /\
        index_embeddings data !! 0%Z = None /\ r.1 = Raise (KeyError 0) /\
        evs = [] /\ connects r.2 = connects w /\ txn r.2 = txn w) \/
     (exists data qv, embeddings_service env payload = Some data /\
        index_embeddings data !! 0%Z = Some qv /\
        connects r.2 = S (connects w) /\ txn r.2 = None /\
        let lit := vector_literal qv in
        (accepts_connection env (connects w) = false /\
         r.1 = Raise OperationalError /\ executed evs = []
         \/
         accepts_connection env (connects w) = true /\
         executed evs = [StSelect op op lit lit min_score_threshold top_k] /\
         match exec_select op op lit lit min_score_threshold top_k (committed w) with
         | Some rows => r.1 = Ok rows
         | None => r.1 = Raise DatabaseError
         end))).
Proof.
  cbv zeta. rewrite search_run. cbv zeta.
  set (payload := embeddings_payload (embeddings_client self) [user_request] dimensions).
  destruct (embeddings_service env payload) as [data|].
  2:{ split; [reflexivity|]. exists []. split; [reflexivity|].
      split; [constructor|]. left. repeat split; reflexivity. }
  destruct (index_embeddings data !! 0%Z) as [qv|] eqn:Hqv.
  2:{ split; [reflexivity|]. exists []. split; [reflexivity|].
      split; [constructor|]. right; left. exists data. repeat split; auto. }
  rewrite with_connection_run. cbv zeta. simpl connects.
  set (st := StSelect _ _ _ _ _ _).
  destruct (accepts_connection env (connects w)).
  - unfold cursor_execute. simpl.
    destruct (exec_select _ _ _ _ _ _ (committed w)) as [rows|] eqn:Hsel; simpl.
    + split; [reflexivity|].
      exists [EvConnect; EvExecute st; EvCommit (committed w)].
      split; [rewrite <- !app_assoc; reflexivity|].
      split; [repeat constructor|]. right; right. exists data, qv.
      split; [reflexivity|]. split; [exact Hqv|]. split; [reflexivity|].
      split; [reflexivity|]. right. split; [reflexivity|]. split; [reflexivity|].
      rewrite Hsel. reflexivity.
    + split; [reflexivity|].
      exists [EvConnect; EvExecute st; EvRollback].
      split; [rewrite <- !app_assoc; reflexivity|].
      split; [constructor|]. right; right. exists data, qv.
      split; [reflexivity|]. split; [exact Hqv|]. split; [reflexivity|].
      split; [reflexivity|]. right. split; [reflexivity|]. split; [reflexivity|].
      rewrite Hsel. reflexivity.
  - simpl. split; [reflexivity|]. exists [EvConnect].
    split; [rewrite <- !app_assoc; reflexivity|].
    split; [constructor|]. right; right. exists data, qv.
    split; [reflexivity|]. split; [exact Hqv|]. split; [reflexivity|].
    split; [reflexivity|]. left. repeat split; reflexivity.
Qed.

End SearchMore.

Section SearchInversion.
Context `{Platform}.
Variable env : Env.

Lemma sql_where_distances (op : DistanceOp) (q : pgvector) (bound : Float)
  (rows : list Row) :
  is_Some (sql_where op q bound rows) ->
  Forall (fun r => is_Some (vector_distance op (row_embedding r) q)) rows.
Proof.
  induction rows as [|r rest IH]; simpl; [constructor|].
  destruct (vector_distance op (row_embedding r) q) as [d|] eqn:Hd;
    [|intros [x Hx]; discriminate].
  destruct (sql_where op q bound rest) as [kept|]; [|intros [x Hx]; discriminate].
  intros _. constructor; [rewrite Hd; eauto|]. apply IH. eauto.
Qed.

(** What a normal return of [search] tells. *)
Lemma search_ok_inv (self : TextProcessor) (search_mode : SearchMode)
  (user_request : string) (top_k : Z) (min_score_threshold : Float)
  (dimensions : Z) (w : World) (results : list RealDictRow) :
  (search env self search_mode user_request top_k min_score_threshold dimensions w).1
  = Ok results ->
  exists data qv q rows,
    embeddings_service env
      (embeddings_payload (embeddings_client self) [user_request] dimensions) = Some data /\
    index_embeddings data !! 0%Z = Some qv /\
    accepts_connection env (connects w) = true /\
    vector_in (vector_literal qv) = Some q /\
    committed w !! vectors_table = Some rows /\
    Forall (fun r => is_Some (vector_distance (selected_metric search_mode)
                                (row_embedding r) q)) rows /\
    (0 <= top_k)%Z /\
    results = take (Z.to_nat top_k)
                (sql_order_by_distance
                   (within_threshold (selected_metric search_mode) q
                      min_score_threshold rows)).
Proof.
  intros Hok.
  destruct (search_cases env self search_mode user_request top_k
              min_score_threshold dimensions w) as (_ & evs & _ & _ & Hcases).
  destruct Hcases as [(_ & Hr & _)|[(data & _ & _ & Hr & _)|Hcase]];
    [rewrite Hr in Hok; discriminate|rewrite Hr in Hok; discriminate|].
  destruct Hcase as (data & qv & Hdata & Hqv & _ & _ & Hconn).
  cbv zeta in Hconn.
  destruct Hconn as [(_ & Hr & _)|(Hacc & _ & Hsel)];
    [rewrite Hr in Hok; discriminate|].
  rewrite (exec_select_same_op _ _ _ _ _ _ (parse_distance_operator search_mode))
    in Hsel.
  destruct (vector_in (vector_literal qv)) as [q|] eqn:Hq;
    [|rewrite Hsel in Hok; discriminate].
  destruct (committed w !! vectors_table) as [rows|] eqn:Hrows;
    [|rewrite Hsel in Hok; discriminate].
  destruct (Z.ltb_spec top_k 0) as [?|Hk]; [rewrite Hsel in Hok; discriminate|].
  destruct (sql_where (selected_metric search_mode) q min_score_threshold rows)
    as [kept|] eqn:Hw; [|rewrite Hsel in Hok; discriminate].
  rewrite Hsel in Hok. injection Hok as <-.
  exists data, qv, q, rows.
  split; [exact Hdata|]. split; [exact Hqv|]. split; [exact Hacc|].
  split; [first [exact Hq|reflexivity]|].
  split; [first [exact Hrows|reflexivity]|]. split.
  - apply (sql_where_distances _ _ min_score_threshold). rewrite Hw. eauto.
  - split; [exact Hk|reflexivity].
Qed.

End SearchInversion.

(** X6.  [search] never changes the stored data: whatever the arguments and
    whatever the environment answers, the committed database after the call
    is the one before it, and every commit made during the call published
    that same database. *)
Theorem search_is_read_only `{Platform} (env : Env) (self : TextProcessor)
  (search_mode : SearchMode) (user_request : string) (top_k : Z)
  (min_score_threshold : Float) (dimensions : Z) (w : World) :
  let r := search env self search_mode user_request top_k min_score_threshold
             dimensions w in
  committed r.2 = committed w /\
  exists evs, log r.2 = log w ++ evs /\
              Forall (fun db => db = committed w) (snapshots evs).
Proof.
  cbv zeta.
  destruct (search_cases env self search_mode user_request top_k
              min_score_threshold dimensions w) as (Hc & evs & Hlog & Hsnap & _).
  split; [exact Hc|]. eexists. split; [exact Hlog|]. simpl. exact Hsnap.
Qed.

(** X7.  When the service gives no embedding for position 0 -- the request
    fails, or the response has no item with index 0 -- [search] raises
    [HTTPError] or [KeyError 0] respectively, and the database is never
    contacted: the request to the service is the only effect of the call. *)
Theorem search_without_query_vector `{Platform} (env : Env) (self : TextProcessor)
  (search_mode : SearchMode) (user_request : string) (top_k : Z)
  (min_score_threshold : Float) (dimensions : Z) (w : World) :
  let payload := embeddings_payload (embeddings_client self) [user_request] dimensions in
  (forall data, embeddings_service env payload = Some data ->
                0%Z ∉ map fst data) ->
  let r := search env self search_mode user_request top_k min_score_threshold
             dimensions w in
  r.1 = match embeddings_service env payload with
        | None => Raise HTTPError
        | Some _ => Raise (KeyError 0)
        end /\
  r.2 = emit (EvPost payload) w.
Proof.
  cbv zeta. intros Hmiss. rewrite search_run. cbv zeta.
  destruct (embeddings_service env _) as [data|]; [|split; reflexivity].
  destruct (index_embeddings data !! 0%Z) as [qv|] eqn:Hqv; [|split; reflexivity].
  exfalso. apply (Hmiss data eq_refl).
  rewrite index_embeddings_last in Hqv.
  apply last_Some_elem_of, list_elem_of_omap in Hqv as (item & Hin & Hitem).
  destruct (decide (item.1 = 0%Z)) as [<-|]; [|discriminate].
  apply list_elem_of_fmap. exists item. auto.
Qed.

Lemma search_without_query_vector_witness :
  let w := Toy.world Toy.three_db in
  let payload := embeddings_payload Toy.client ["query"] 1 in
  let r := search (Toy.env 0) Toy.processor EUCLIDIAN_DISTANCE "query" 5 5%Z 1 w in
  r.1 = match embeddings_service (Toy.env 0) payload with
        | None => Raise HTTPError
        | Some _ => Raise (KeyError 0)
        end /\
  r.2 = emit (EvPost payload) w.
Proof.
  apply (search_without_query_vector (Toy.env 0) Toy.processor EUCLIDIAN_DISTANCE
           "query" 5 5%Z 1 (Toy.world Toy.three_db)).
  intros data Hdata. vm_compute in Hdata. injection Hdata as <-.
  simpl. apply not_elem_of_nil.
Defined.

(** X8.  For a [top_k] that is positive and fits the server's 64-bit LIMIT:
    [search] returns normally exactly when the service answers with an
    embedding at index 0, the database accepts the connection, reads the
    literal of that embedding as a vector, has the [vectors] table and can
    compute the distance of every stored vector to it; and what it returns is
    then the first [top_k] rows of an arrangement, in non-decreasing
    distance, of the rows within the threshold (rows at equal distance in
    any order). *)
Theorem search_returns_iff `{Platform} (env : Env) (self : TextProcessor)
  (search_mode : SearchMode) (user_request : string) (top_k : Z)
  (min_score_threshold : Float) (dimensions : Z) (w : World) :
  (0 < top_k < 2 ^ 63)%Z ->
  let r := search env self search_mode user_request top_k min_score_threshold
             dimensions w in
  let metric := selected_metric search_mode in
  let payload := embeddings_payload (embeddings_client self) [user_request] dimensions in
  ((exists results, r.1 = Ok results)
   <->
   exists data qv q rows,
     embeddings_service env payload = Some data /\
     index_embeddings data !! 0%Z = Some qv /\
     accepts_connection env (connects w) = true /\
     vector_in (vector_literal qv) = Some q /\
     committed w !! vectors_table = Some rows /\
     Forall (fun r => is_Some (vector_distance metric (row_embedding r) q)) rows) /\
  (forall results, r.1 = Ok results ->
     exists data qv q rows ordered,
       embeddings_service env payload = Some data /\
       index_embeddings data !! 0%Z = Some qv /\
       vector_in (vector_literal qv) = Some q /\
       committed w !! vectors_table = Some rows /\
       ordered ≡ₚ within_threshold metric q min_score_threshold rows /\
       StronglySorted by_distance ordered /\
       results = take (Z.to_nat top_k) ordered).
Proof.
  intros Hk. cbv zeta. split; [split|].
  - intros [results Hok].
    destruct (search_ok_inv env self search_mode user_request top_k
                min_score_threshold dimensions w results Hok)
      as (data & qv & q & rows & Hdata & Hqv & Hacc & Hq & Hrows & Hdist & _ & _).
    exists data, qv, q, rows. repeat split; assumption.
  - intros (data & qv & q & rows & Hdata & Hqv & Hacc & Hq & Hrows & Hdist).
    eexists.
    apply (search_ok env self search_mode user_request top_k min_score_threshold
             dimensions w data qv q rows); auto. lia.
  - intros results Hok.
    destruct (search_ok_inv env self search_mode user_request top_k
                min_score_threshold dimensions w results Hok)
      as (data & qv & q & rows & Hdata & Hqv & Hacc & Hq & Hrows & Hdist & _ & ->).
    exists data, qv, q, rows, (sql_order_by_distance
      (within_threshold (selected_metric search_mode) q min_score_threshold rows)).
    split; [exact Hdata|]. split; [exact Hqv|]. split; [exact Hq|].
    split; [exact Hrows|]. split; [apply merge_sort_Permutation|].
    split; [apply (StronglySorted_merge_sort by_distance)|reflexivity].
Qed.

Lemma search_returns_iff_witness :
  let w := Toy.world Toy.three_db in
  let r := search (Toy.env 1) Toy.processor EUCLIDIAN_DISTANCE "query" 5 5%Z 1 w in
  let payload := embeddings_payload Toy.client ["query"] 1 in
  ((exists results, r.1 = Ok results)
   <->
   exists data qv q rows,
     embeddings_service (Toy.env 1) payload = Some data /\
     index_embeddings data !! 0%Z = Some qv /\
     accepts_connection (Toy.env 1) (connects w) = true /\
     vector_in (vector_literal qv) = Some q /\
     committed w !! vectors_table = Some rows /\
     Forall (fun r => is_Some (vector_distance L2Distance (row_embedding r) q)) rows) /\
  (forall results, r.1 = Ok results ->
     exists data qv q rows ordered,
       embeddings_service (Toy.env 1) payload = Some data /\
       index_embeddings data !! 0%Z = Some qv /\
       vector_in (vector_literal qv) = Some q /\
       committed w !! vectors_table = Some rows /\
       ordered ≡ₚ @within_threshold Toy.platform L2Distance q 5%Z rows /\
       StronglySorted by_distance ordered /\
       results = take (Z.to_nat 5) ordered).
Proof.
  apply (search_returns_iff (Toy.env 1) Toy.processor EUCLIDIAN_DISTANCE "query"
           5 5%Z 1 (Toy.world Toy.three_db)).
  lia.
Defined.

(** ** Ingestion followed by search *)

Section IngestThenSearch.
Context `{Platform}.
Variable env : Env.
Variable chunk_text : string -> Z -> Z -> result (list string).

(** After a call with reset that returned, the table holds the rows of the
    document and no others. *)
Lemma process_text_file_reset_ok (self : TextProcessor) (file_name : string)
  (chunk_size overlap dimensions : Z) (w : World) :
  let r := process_text_file env chunk_text self file_name chunk_size overlap
             dimensions true w in
  r.1 = Ok tt ->
  exists content chunks rows,
    files env file_name = Some content /\
    chunk_text content chunk_size overlap = Ok chunks /\
    map row_text rows = chunks /\
    vectors_of (committed r.2) = rows.
Proof.
  cbv zeta. rewrite process_text_file_reset_run, truncate_table_run. cbv zeta.
  destruct (accepts_connection env (connects w)); [|discriminate].
  destruct (committed w !! vectors_table) as [old|]; [|discriminate].
  set (db := <[vectors_table := []]> (committed w)).
  set (w1 := {| committed := db; txn := None; connects := _; log := _ |}).
  destruct (process_text_file_keep_spec env chunk_text self file_name chunk_size
              overlap dimensions w1) as (evs & _ & Hres).
  intros Hok. rewrite Hok in Hres.
  destruct Hres as (content & chunks & rows & Hf & Hc & Hrows & Hvec & _).
  exists content, chunks, rows. repeat split; auto.
  rewrite Hvec. change (committed w1) with db.
  unfold vectors_of, db. rewrite lookup_insert_eq. reflexivity.
Qed.

Lemma within_threshold_length (op : DistanceOp) (q : pgvector) (bound : Float)
  (rows : list Row) :
  length (within_threshold op q bound rows) <= length rows.
Proof.
  induction rows as [|r rest IH]; simpl; [lia|].
  destruct (vector_distance op (row_embedding r) q) as [d|]; simpl; [|lia].
  destruct (float_lt d bound); simpl; lia.
Qed.

Lemma within_threshold_text (op : DistanceOp) (q : pgvector) (bound : Float)
  (rows : list Row) (x : RealDictRow) :
  x ∈ within_threshold op q bound rows -> res_text x ∈ map row_text rows.
Proof.
  intros Hx. apply list_elem_of_omap in Hx as (r & Hr & Hx).
  destruct (vector_distance op (row_embedding r) q) as [d|]; [|discriminate].
  destruct (float_lt d bound); [|discriminate].
  injection Hx as <-. simpl. apply list_elem_of_fmap. exists r. auto.
Qed.

End IngestThenSearch.

(** X9.  Ingestion with reset followed by a search: if both calls return,
    every text the search returns is one of the chunks of the ingested
    document, and there are no more results than chunks -- whatever the
    table held before the ingestion. *)
Theorem search_after_ingest `{Platform} (env : Env)
  (chunk_text : string -> Z -> Z -> result (list string))
  (self : TextProcessor) (file_name : string)
  (chunk_size overlap dimensions : Z) (w : World)
  (search_mode : SearchMode) (user_request : string) (top_k : Z)
  (min_score_threshold : Float) (results : list RealDictRow) :
  let ingest := process_text_file env chunk_text self file_name chunk_size
                  overlap dimensions true w in
  ingest.1 = Ok tt ->
  (search env self search_mode user_request top_k min_score_threshold
     dimensions ingest.2).1 = Ok results ->
  exists content chunks,
    files env file_name = Some content /\
    chunk_text content chunk_size overlap = Ok chunks /\
    (forall x, x ∈ results -> res_text x ∈ chunks) /\
    length results <= length chunks.
Proof.
  cbv zeta. intros Hingest Hsearch.
  destruct (process_text_file_reset_ok env chunk_text self file_name chunk_size
              overlap dimensions w Hingest)
    as (content & chunks & rows & Hf & Hc & Hrows & Hvec).
  destruct (search_ok_inv env self search_mode user_request top_k
              min_score_threshold dimensions _ results Hsearch)
    as (data & qv & q & rows' & _ & _ & _ & _ & Htable & _ & _ & ->).
  assert (rows' = rows) as ->.
  { unfold vectors_of in Hvec. rewrite Htable in Hvec. exact Hvec. }
  exists content, chunks. split; [exact Hf|]. split; [exact Hc|]. split.
  - intros x Hx. apply subseteq_take in Hx.
    unfold sql_order_by_distance in Hx. rewrite merge_sort_Permutation in Hx.
    rewrite <- Hrows. apply (within_threshold_text _ _ _ _ _ Hx).
  - rewrite length_take. unfold sql_order_by_distance.
    rewrite merge_sort_Permutation, <- Hrows, length_map.
    pose proof (within_threshold_length (selected_metric search_mode) q
                  min_score_threshold rows). lia.
Qed.

Lemma search_after_ingest_witness :
  let ingest := process_text_file (Toy.env 3) Chunker.chunk_text Toy.processor
                  "manual.txt" 4 2 1 true (Toy.world Toy.stocked_db) in
  let results := [Toy.hit "ABCD" 0; Toy.hit "CDEF" 1] in
  exists content chunks,
    files (Toy.env 3) "manual.txt" = Some content /\
    Chunker.chunk_text content 4 2 = Ok chunks /\
    (forall x, x ∈ results -> res_text x ∈ chunks) /\
    length results <= length chunks.
Proof.
  apply (search_after_ingest (Toy.env 3) Chunker.chunk_text Toy.processor
           "manual.txt" 4 2 1 (Toy.world Toy.stocked_db)
           EUCLIDIAN_DISTANCE "query" 5 4%Z).
  - vm_compute. reflexivity.
  - vm_compute. reflexivity.
Defined.

(** ** The caller *)

(** X10.  The retrieval step of the console loop never reaches [search]: the
    call passes [score_threshold], which is not a parameter of [search] (the
    parameter is [min_score_threshold]), so for every user input it raises
    [TypeError] before anything is sent to the embedding service or to the
    database, and no context is ever built. *)
Theorem retrieve_context_raises `{Platform} (env : Env) (self : TextProcessor)
  (user_input : string) (score_threshold : Float) (w : World) :
  retrieve_context env self user_input score_threshold w = (Raise TypeError, w) /\
  ("score_threshold" ∉ search_parameters) /\
  (forall given, check_keywords search_parameters given = Ok tt ->
                 forall k, k ∈ given -> k ∈ search_parameters).
Proof.
  split; [reflexivity|]. split.
  - unfold search_parameters. intros Hin.
    repeat (apply elem_of_cons in Hin as [Hin|Hin]; [discriminate|]).
    inversion Hin.
  - intros given Hok k Hk. unfold check_keywords in Hok.
    destruct (forallb _ given) eqn:Hall; [|discriminate].
    rewrite forallb_forall in Hall.
    apply list_elem_of_In in Hk. specialize (Hall k Hk).
    apply bool_decide_eq_true in Hall. exact Hall.
Qed.

(** ** Ingesting twice, and searches that find nothing *)

(** X11.  [process_text_file] does not look at what the table already holds:
    under the conditions in which it returns, calling it twice for the same
    file without reset stores the rows of the document twice, after the rows
    that were there. *)
Theorem process_text_file_twice `{Platform} (env : Env)
  (chunk_text : string -> Z -> Z -> result (list string))
  (self : TextProcessor) (file_name : string)
  (chunk_size overlap dimensions : Z) (w : World)
  (content : string) (chunks : list string) (data : list (Z * list Float)) :
  files env file_name = Some content ->
  chunk_text content chunk_size overlap = Ok chunks ->
  embeddings_service env
    (embeddings_payload (embeddings_client self) chunks dimensions) = Some data ->
  (forall n, accepts_connection env n = true) ->
  is_Some (committed w !! vectors_table) ->
  (forall j, j < length chunks ->
     exists v, index_embeddings data !! Z.of_nat j = Some v /\
               is_Some (vector_in (vector_literal v))) ->
  let first := process_text_file env chunk_text self file_name chunk_size overlap
                 dimensions false w in
  let second := process_text_file env chunk_text self file_name chunk_size overlap
                  dimensions false first.2 in
  let rows := document_rows (index_embeddings data) 0 chunks in
  first.1 = Ok tt /\ second.1 = Ok tt /\
  vectors_of (committed first.2) = vectors_of (committed w) ++ rows /\
  vectors_of (committed second.2) = vectors_of (committed w) ++ rows ++ rows.
Proof.
  intros Hfile Hchunks Hdata Hconn Htable Hall. cbv zeta.
  destruct (process_text_file_keep_ok env chunk_text self file_name chunk_size
              overlap dimensions w content chunks data Hfile Hchunks Hdata)
    as (Hok1 & Hdb1); [apply Hconn|exact Htable|exact Hall|].
  set (w1 := (process_text_file env chunk_text self file_name chunk_size overlap
                dimensions false w).2) in *.
  assert (Hvec1 : vectors_of (committed w1)
                  = vectors_of (committed w)
                    ++ document_rows (index_embeddings data) 0 chunks)
    by (rewrite Hdb1; unfold vectors_of at 1; rewrite lookup_insert_eq; reflexivity).
  destruct (process_text_file_keep_ok env chunk_text self file_name chunk_size
              overlap dimensions w1 content chunks data Hfile Hchunks Hdata)
    as (Hok2 & Hdb2); [apply Hconn| |exact Hall|].
  { rewrite Hdb1, lookup_insert_eq. eauto. }
  split; [exact Hok1|]. split; [exact Hok2|]. split; [exact Hvec1|].
  rewrite Hdb2. unfold vectors_of at 1. rewrite lookup_insert_eq. simpl.
  rewrite Hvec1, <- app_assoc. reflexivity.
Qed.

Lemma process_text_file_twice_witness :
  let w := Toy.world Toy.stocked_db in
  let first := process_text_file (Toy.env 3) Chunker.chunk_text Toy.processor
                 "manual.txt" 4 2 1 false w in
  let second := process_text_file (Toy.env 3) Chunker.chunk_text Toy.processor
                  "manual.txt" 4 2 1 false first.2 in
  let rows := document_rows (index_embeddings Toy.three_embeddings) 0
                ["ABCD"; "CDEF"; "EFGH"] in
  first.1 = Ok tt /\ second.1 = Ok tt /\
  vectors_of (committed first.2) = vectors_of (committed w) ++ rows /\
  vectors_of (committed second.2) = vectors_of (committed w) ++ rows ++ rows.
Proof.
  apply (process_text_file_twice (Toy.env 3) Chunker.chunk_text
           Toy.processor "manual.txt" 4 2 1 (Toy.world Toy.stocked_db)
           "ABCDEFGH" ["ABCD"; "CDEF"; "EFGH"] Toy.three_embeddings).
  - reflexivity.
  - reflexivity.
  - reflexivity.
  - intros n. reflexivity.
  - eexists. vm_compute. reflexivity.
  - intros [|[|[|j]]] Hj; simpl in Hj; try lia;
      eexists; (split; [vm_compute; reflexivity|eexists; vm_compute; reflexivity]).
Defined.



(** ** One metric per search *)

Section SearchMetric.
Context `{Platform}.
Variable env : Env.

(** What [search] sends and what it ends with, by what the environment
    answers. *)
Lemma search_sends (self : TextProcessor) (search_mode : SearchMode)
  (user_request : string) (top_k : Z) (min_score_threshold : Float)
  (dimensions : Z) (w : World) :
  let r := search env self search_mode user_request top_k min_score_threshold
             dimensions w in
  let op := distance_operator search_mode in
  exists evs,
    log r.2 = log w ++ evs /\
    match embeddings_service env
            (embeddings_payload (embeddings_client self) [user_request] dimensions) with
    | None => executed evs = [] /\ r.1 = Raise HTTPError
    | Some data =>
        match index_embeddings data !! 0%Z with
        | None => executed evs = [] /\ r.1 = Raise (KeyError 0)
        | Some qv =>
            let lit := vector_literal qv in
            if accepts_connection env (connects w) then
              executed evs = [StSelect op op lit lit min_score_threshold top_k] /\
              r.1 = match exec_select op op lit lit min_score_threshold top_k
                            (committed w) with
                    | Some rows => Ok rows
                    | None => Raise DatabaseError
                    end
            else executed evs = [] /\ r.1 = Raise OperationalError
        end
    end.
Proof.
  cbv zeta. rewrite search_run. cbv zeta.
  set (payload := embeddings_payload (embeddings_client self) [user_request] dimensions).
  destruct (embeddings_service env payload) as [data|];
    [|exists [EvPost payload]; auto].
  destruct (index_embeddings data !! 0%Z) as [qv|];
    [|exists [EvPost payload]; auto].
  rewrite with_connection_run. cbv zeta. simpl connects.
  set (st := StSelect _ _ _ _ _ _).
  destruct (accepts_connection env (connects w)).
  - unfold cursor_execute. simpl.
    destruct (exec_select _ _ _ _ _ _ (committed w)) as [rows|]; simpl.
    + exists [EvPost payload; EvConnect; EvExecute st; EvCommit (committed w)].
      split; [rewrite <- !app_assoc; reflexivity|]. split; reflexivity.
    + exists [EvPost payload; EvConnect; EvExecute st; EvRollback].
      split; [rewrite <- !app_assoc; reflexivity|]. split; reflexivity.
  - simpl. exists [EvPost payload; EvConnect].
    split; [rewrite <- !app_assoc; reflexivity|]. split; reflexivity.
Qed.

Lemma within_threshold_elem (op : DistanceOp) (q : pgvector) (bound : Float)
  (rows : list Row) (x : RealDictRow) :
  x ∈ within_threshold op q bound rows ->
  float_lt (res_distance x) bound = true /\
  exists r, r ∈ rows /\ res_text x = row_text r /\
            vector_distance op (row_embedding r) q = Some (res_distance x).
Proof.
  intros Hx. apply list_elem_of_omap in Hx as (r & Hr & Hx).
  destruct (vector_distance op (row_embedding r) q) as [d|] eqn:Hd; [|discriminate].
  destruct (float_lt d bound) eqn:Hlt; [|discriminate].
  injection Hx as <-. simpl. split; [exact Hlt|]. exists r. auto.
Qed.

End SearchMetric.

(** C10.  [search] picks one operator text from the mode: the Euclidean one
    exactly when the mode equals [EUCLIDIAN_DISTANCE], the cosine one for
    every other value, and the server reads that text as the corresponding
    metric.  Whenever the call reaches the database (the service gave an
    embedding for the request and the connection was accepted) it sends
    exactly one statement, the search query with that one text in both
    operator places; otherwise it sends none and raises.  And whenever
    [search] returns, one metric has decided everything: every returned row carries,
    as its distance, the distance of a stored row to the query vector under
    that metric; that distance is below the threshold; the rows come in
    non-decreasing order of it; and they are the first [top_k] of the rows
    that are within the threshold under that metric. *)
Theorem search_single_metric `{Platform} (env : Env) (self : TextProcessor)
  (search_mode : SearchMode) (user_request : string) (top_k : Z)
  (min_score_threshold : Float) (dimensions : Z) (w : World) :
  let r := search env self search_mode user_request top_k min_score_threshold
             dimensions w in
  let op := distance_operator search_mode in
  let metric := selected_metric search_mode in
  let payload := embeddings_payload (embeddings_client self) [user_request] dimensions in
  (op = "<->" <-> search_mode = EUCLIDIAN_DISTANCE) /\
  (op = "<=>" <-> search_mode <> EUCLIDIAN_DISTANCE) /\
  parse_op op = Some metric /\
  (metric = L2Distance <-> search_mode = EUCLIDIAN_DISTANCE) /\
  (metric = CosineDistance <-> search_mode <> EUCLIDIAN_DISTANCE) /\
  (exists evs,
     log r.2 = log w ++ evs /\
     match embeddings_service env payload with
     | None => executed evs = [] /\ r.1 = Raise HTTPError
     | Some data =>
         match index_embeddings data !! 0%Z with
         | None => executed evs = [] /\ r.1 = Raise (KeyError 0)
         | Some qv =>
             let lit := vector_literal qv in
             if accepts_connection env (connects w) then
               executed evs = [StSelect op op lit lit min_score_threshold top_k]
             else executed evs = [] /\ r.1 = Raise OperationalError
         end
     end) /\
  (forall results, r.1 = Ok results ->
     exists data qv q rows ordered,
       embeddings_service env payload = Some data /\
       index_embeddings data !! 0%Z = Some qv /\
       vector_in (vector_literal qv) = Some q /\
       committed w !! vectors_table = Some rows /\
       ordered ≡ₚ within_threshold metric q min_score_threshold rows /\
       StronglySorted by_distance ordered /\
       results = take (Z.to_nat top_k) ordered /\
       (forall x, x ∈ results ->
          float_lt (res_distance x) min_score_threshold = true /\
          exists row, row ∈ rows /\ res_text x = row_text row /\
                      vector_distance metric (row_embedding row) q
                      = Some (res_distance x)) /\
       (forall i j x y, i < j -> results !! i = Some x -> results !! j = Some y ->
          float_le (res_distance x) (res_distance y) = true)).
Proof.
  cbv zeta.
  split; [|split; [|split; [|split; [|split; [|split]]]]].
  - mode_cases search_mode.
  - mode_cases search_mode.
  - apply parse_distance_operator.
  - mode_cases search_mode.
  - mode_cases search_mode.
  - destruct (search_sends env self search_mode user_request top_k
                min_score_threshold dimensions w) as (evs & Hlog & Hsent).
    exists evs. split; [exact Hlog|].
    destruct (embeddings_service env _) as [data|]; [|exact Hsent].
    destruct (index_embeddings data !! 0%Z) as [qv|]; [|exact Hsent].
    cbv zeta in Hsent |- *.
    destruct (accepts_connection env (connects w)); [apply Hsent|exact Hsent].
  - intros results Hok.
    destruct (search_ok_inv env self search_mode user_request top_k
                min_score_threshold dimensions w results Hok)
      as (data & qv & q & rows & Hdata & Hqv & Hacc & Hq & Hrows & Hdist & _ & ->).
    set (matching := within_threshold (selected_metric search_mode) q
                       min_score_threshold rows).
    assert (Hperm : sql_order_by_distance matching ≡ₚ matching)
      by apply merge_sort_Permutation.
    assert (Hsorted : StronglySorted by_distance (sql_order_by_distance matching))
      by apply (StronglySorted_merge_sort by_distance).
    exists data, qv, q, rows, (sql_order_by_distance matching).
    split; [exact Hdata|]. split; [exact Hqv|]. split; [exact Hq|].
    split; [exact Hrows|]. split; [exact Hperm|]. split; [exact Hsorted|].
    split; [reflexivity|]. split.
    + intros x Hx. apply subseteq_take in Hx. rewrite Hperm in Hx.
      apply (within_threshold_elem _ _ _ _ _ Hx).
    + intros i j x y Hij Hi Hj.
      apply lookup_take_Some in Hi as [Hi _]. apply lookup_take_Some in Hj as [Hj _].
      exact (StronglySorted_lookup by_distance _ Hsorted i j x y Hij Hi Hj).
Qed.

(** The cosine mode on the small platform: the statement carries the cosine
    operator in both places and the distances reported are by that metric,
    one minus the dot product with the query vector [0], which is 1 for
    every stored vector. *)
Example search_cosine_scenario :
  let r := search (Toy.env 1) Toy.processor COSINE_DISTANCE "query" 2 2%Z 1
             (Toy.world Toy.three_db) in
  executed (log r.2) = [Toy.cosine_query 2 2] /\
  match r.1 with
  | Ok rows => map res_distance rows = [1%Z; 1%Z]
  | Raise _ => False
  end.
Proof. cbv zeta. split; vm_compute; reflexivity. Qed.
